(** * sonshi-ragflow: the keyword search of [simple-rag-server.py]

    A shallow embedding of [SunziKnowledgeBase] (document loading, title
    extraction, keyword scoring, excerpt extraction, answer composition)
    and the properties its specification states about it.

    Python strings are sequences of Unicode code points, so a [str] is a
    list of code points; the built-in string methods the program calls are
    modelled in [Module Py].  [str.lower] depends on the Unicode case
    tables, which are not part of the repository: the program is
    parameterised by it, and [lower_ascii] is the instance used on ASCII
    text. *)

From Stdlib Require Import Ascii String.
From Stdlib Require Import List ZArith NArith Bool Lia.
From Stdlib Require Import Sorted Permutation.
Import ListNotations.

Set Implicit Arguments.

(* ================================================================= *)
(** ** Python built-ins used by the program *)

Module Py.

Definition char := N.
Definition str := list char.

Definition str_eq_dec : forall a b : str, {a = b} + {a <> b} :=
  list_eq_dec N.eq_dec.

(** An ASCII literal as a Python string. *)
Definition lit (s : string) : str := map N_of_ascii (list_ascii_of_string s).

(** The line feed, written ['\n'] in the source. *)
Definition LF : char := 10%N.

(** [str.isspace] on one code point: the characters that [str.split()]
    and [str.strip()] treat as whitespace. *)
Definition isspace (c : char) : bool :=
  ((9 <=? c) && (c <=? 13) || (28 <=? c) && (c <=? 32)
   || (c =? 133) || (c =? 160) || (c =? 5760)
   || (8192 <=? c) && (c <=? 8202)
   || (c =? 8232) || (c =? 8233) || (c =? 8239) || (c =? 8287)
   || (c =? 12288))%N.

(** [s.startswith(p)] *)
Fixpoint startswith (s p : str) {struct p} : bool :=
  match p with
  | [] => true
  | a :: p' =>
      match s with
      | [] => false
      | b :: s' => (a =? b)%N && startswith s' p'
      end
  end.

(** [sub in s] *)
Fixpoint contains (s sub : str) {struct s} : bool :=
  startswith s sub ||
  match s with
  | [] => false
  | _ :: s' => contains s' sub
  end.

(** [s.count(sub)]: the scan goes left to right and, after a match, resumes
    behind it, so the occurrences counted do not overlap.  [skip] is the
    number of characters of the last match still to be passed over. *)
Fixpoint count_from (sub : str) (skip : nat) (s : str) {struct s} : Z :=
  match s with
  | [] => 0
  | _ :: s' =>
      match skip with
      | S k => count_from sub k s'
      | O =>
          if startswith s sub
          then 1 + count_from sub (length sub - 1) s'
          else count_from sub 0 s'
      end
  end.

Definition count (s sub : str) : Z :=
  match sub with
  | [] => Z.of_nat (length s) + 1
  | _ :: _ => count_from sub 0 s
  end.

(** [s.split(sep)] for a non-empty [sep] (Python raises [ValueError] on an
    empty one; the program only passes the literals ['\n'] and ['\n\n']).
    [cur] is the piece being read. *)
Fixpoint split_from (sep : str) (skip : nat) (cur s : str) {struct s}
  : list str :=
  match s with
  | [] => [cur]
  | c :: s' =>
      match skip with
      | S k => split_from sep k cur s'
      | O =>
          if startswith s sep
          then cur :: split_from sep (length sep - 1) [] s'
          else split_from sep 0 (cur ++ [c]) s'
      end
  end.

Definition split (s sep : str) : list str := split_from sep 0 [] s.

(** [s.split()]: maximal runs of non-whitespace characters. *)
Fixpoint split_ws_from (cur s : str) {struct s} : list str :=
  match s with
  | [] => match cur with [] => [] | _ :: _ => [cur] end
  | c :: s' =>
      if isspace c
      then match cur with
           | [] => split_ws_from [] s'
           | _ :: _ => cur :: split_ws_from [] s'
           end
      else split_ws_from (cur ++ [c]) s'
  end.

Definition split_ws (s : str) : list str := split_ws_from [] s.

(** [s.strip()] *)
Fixpoint lstrip (s : str) : str :=
  match s with
  | [] => []
  | c :: s' => if isspace c then lstrip s' else s
  end.

Definition rstrip (s : str) : str := rev (lstrip (rev s)).

Definition strip (s : str) : str := rstrip (lstrip s).

(** [sep.join(l)] *)
Fixpoint join (sep : str) (l : list str) : str :=
  match l with
  | [] => []
  | x :: l' =>
      match l' with
      | [] => x
      | _ :: _ => x ++ sep ++ join sep l'
      end
  end.

(** [l[:n]], where a negative [n] counts from the end. *)
Definition slice_to (A : Type) (l : list A) (n : Z) : list A :=
  if (0 <=? n)%Z then firstn (Z.to_nat n) l
  else firstn (length l - Z.to_nat (- n)) l.

(** [l.sort(key=key, reverse=True)]: the sort is stable, elements with
    equal keys keep their order.  [insert_desc] puts [x], which stood
    before every element of [l], in front of the first element whose key
    is not greater. *)
Fixpoint insert_desc (A : Type) (key : A -> Z) (x : A) (l : list A)
  : list A :=
  match l with
  | [] => [x]
  | y :: l' =>
      if (key x <? key y)%Z then y :: insert_desc key x l' else x :: l
  end.

Definition sort_desc (A : Type) (key : A -> Z) (l : list A) : list A :=
  fold_right (insert_desc key) [] l.

(** A [dict] keeps its items in insertion order; assigning to a key that
    is present replaces the value in place. *)
Definition dict (V : Type) := list (str * V).

Fixpoint dict_set (V : Type) (d : dict V) (k : str) (v : V) : dict V :=
  match d with
  | [] => [(k, v)]
  | (k', v') :: d' =>
      if str_eq_dec k k' then (k, v) :: d' else (k', v') :: dict_set d' k v
  end.

Definition keys (V : Type) (d : dict V) : list str := map fst d.

End Py.

Import Py.

(* ================================================================= *)
(** ** Data model *)

(** The value stored per file name in [self.documents]. *)
Record Document := {
  doc_title : str;
  doc_content : str;
  doc_file_path : str
}.

(** [SearchResult].  The score is declared [float] and always holds the
    integer count computed by [search]. *)
Record SearchResult := {
  title : str;
  content : str;
  relevance_score : Z;
  file_path : str
}.

(** The fixed texts of [generate_answer] (Japanese in the source). *)

(** ["Unknown Title"] *)
Definition unknown_title : str := lit "Unknown Title".

(** The reply of [generate_answer] to an empty result list, a sentence
    saying that no related information was found. *)
Definition not_found_message : str :=
  [30003; 12375; 35379; 12372; 12374; 12356; 12414; 12379; 12435; 12364;
   12289; 38306; 36899; 12377; 12427; 24773; 22577; 12364; 35211; 12388;
   12363; 12426; 12414; 12379; 12435; 12391; 12375; 12383; 12290]%N.

(** The opening corner bracket put before the best title. *)
Definition answer_open : str := [12300]%N.

(** The closing corner bracket, the word for "from", a full-width colon
    and two line feeds. *)
Definition answer_close : str := [12301; 12424; 12426; 65306; 10; 10]%N.

(** Two line feeds and the sentence announcing other related teachings,
    ending in a full-width colon. *)
Definition other_teachings : str :=
  [10; 10; 38306; 36899; 12377; 12427; 20182; 12398; 25945; 12360; 12418;
   12354; 12426; 12414; 12377; 65306]%N.

(* ================================================================= *)
(** ** Effects of document loading *)

(** An exception raised while a file is opened or read. *)
Inductive exn := Exception (msg : str).

Definition exn_msg (e : exn) : str := let '(Exception m) := e in m.

(** One entry of [data_dir.glob("*.md")]: its name, its path as a string
    and what [open] and [read] give. *)
Record md_file := {
  md_name : str;
  md_path : str;
  md_read : str + exn
}.

(** The data directory as the loader sees it. *)
Record data_dir := {
  dir_path : str;
  dir_exists : bool;
  dir_glob_md : list md_file
}.

(** The mutable state: [self.documents] and what was printed. *)
Record kb_state := {
  documents : dict Document;
  stdout : list str
}.

(** Computations over the state that return or raise. *)
Definition M (A : Type) : Type := kb_state -> (A + exn) * kb_state.

Definition ret (A : Type) (a : A) : M A := fun st => (inl a, st).

Definition bind (A B : Type) (m : M A) (f : A -> M B) : M B :=
  fun st =>
    match m st with
    | (inl a, st') => f a st'
    | (inr e, st') => (inr e, st')
    end.

Definition raise (A : Type) (e : exn) : M A := fun st => (inr e, st).
Arguments raise {A} e.

Definition try_except (A : Type) (body : M A) (handler : exn -> M A) : M A :=
  fun st =>
    match body st with
    | (inl a, st') => (inl a, st')
    | (inr e, st') => handler e st'
    end.

Declare Scope kb_scope.
Delimit Scope kb_scope with kb.
Notation "x <- m ;; k" := (bind m (fun x => k))
  (at level 61, m at next level, right associativity) : kb_scope.
Notation "m ;;; k" := (bind m (fun _ => k))
  (at level 61, right associativity) : kb_scope.
Open Scope kb_scope.

Definition print (line : str) : M unit :=
  fun st => (inl tt, {| documents := documents st;
                        stdout := stdout st ++ [line] |}).

Definition set_document (k : str) (v : Document) : M unit :=
  fun st => (inl tt, {| documents := dict_set (documents st) k v;
                        stdout := stdout st |}).

(** [open(md_file)] followed by [f.read()]. *)
Definition read_text (f : md_file) : M str :=
  match md_read f with
  | inl text => ret text
  | inr e => raise e
  end.

Fixpoint for_each (A : Type) (l : list A) (body : A -> M unit) : M unit :=
  match l with
  | [] => ret tt
  | x :: l' => body x ;;; for_each l' body
  end.

(* ================================================================= *)
(** ** SunziKnowledgeBase *)

Section KnowledgeBase.

(** [str.lower] *)
Variable lower : str -> str.

(** [extract_title] *)
Fixpoint extract_title_loop (lines : list str) : str :=
  match lines with
  | [] => unknown_title
  | line :: rest =>
      if startswith line (lit "# ")
      then strip (skipn 2 line)
      else extract_title_loop rest
  end.

Definition extract_title (content : str) : str :=
  extract_title_loop (split content [LF]).

(** [load_documents] *)
Definition load_documents (d : data_dir) : M unit :=
  if negb (dir_exists d)
  then print (lit "Warning: Data directory " ++ dir_path d ++ lit " not found")
  else
    for_each (dir_glob_md d) (fun f =>
      try_except
        (text <- read_text f ;;
         set_document (md_name f)
           {| doc_title := extract_title text;
              doc_content := text;
              doc_file_path := md_path f |} ;;;
         print (lit "Loaded: " ++ md_name f))
        (fun e =>
           print (lit "Error loading " ++ md_path f ++ lit ": " ++ exn_msg e))).

(** [__init__]: an empty dictionary, then the load. *)
Definition init_state : kb_state := {| documents := []; stdout := [] |}.

Definition init (d : data_dir) : (unit + exn) * kb_state :=
  load_documents d init_state.

(** [extract_relevant_content] *)
Definition relevant_step (query_words : list str) (relevant : list str)
  (paragraph : str) : list str :=
  let paragraph_lower := lower paragraph in
  if existsb (fun word => contains paragraph_lower word) query_words
  then relevant ++ [strip paragraph]
  else relevant.

Definition extract_relevant_content (content : str) (query_words : list str)
  : str :=
  let paragraphs := split content [LF; LF] in
  let relevant_paragraphs :=
    fold_left (relevant_step query_words) paragraphs [] in
  join [LF; LF] (firstn 3 relevant_paragraphs).

(** The scoring loop of [search] over the words of the query. *)
Definition score_step (content_lower : str) (score : Z) (word : str) : Z :=
  if contains content_lower word
  then score + count content_lower word
  else score.

Definition doc_score (content_lower : str) (query_words : list str) : Z :=
  fold_left (score_step content_lower) query_words 0%Z.

(** The body of the loop of [search] over [self.documents.items()]. *)
Definition search_step (query_lower : str) (results : list SearchResult)
  (item : str * Document) : list SearchResult :=
  let '(filename, doc) := item in
  let content_lower := lower (doc_content doc) in
  let query_words := split_ws query_lower in
  let score := doc_score content_lower query_words in
  if (0 <? score)%Z
  then results ++
       [ {| title := doc_title doc;
            content := extract_relevant_content (doc_content doc) query_words;
            relevance_score := score;
            file_path := filename |} ]
  else results.

(** [search] *)
Definition search (docs : dict Document) (query : str) (max_results : Z)
  : list SearchResult :=
  let query_lower := lower query in
  let results := fold_left (search_step query_lower) docs [] in
  slice_to (sort_desc relevance_score results) max_results.

(** [generate_answer] *)
Definition generate_answer (query : str) (results : list SearchResult)
  : str :=
  match results with
  | [] => not_found_message
  | best_result :: _ =>
      let answer := answer_open ++ title best_result ++ answer_close in
      let answer := answer ++ firstn 500 (content best_result) in
      if (1 <? length results)%nat
      then answer ++ other_teachings
             ++ join (lit ", ") (map title (skipn 1 results))
      else answer
  end.

End KnowledgeBase.

(** [str.lower] on ASCII text: the letters A to Z move to a to z, every
    other code point stays. *)
Definition lower_char (c : char) : char :=
  if ((65 <=? c) && (c <=? 90))%N then (c + 32)%N else c.

Definition lower_ascii (s : str) : str := map lower_char s.

(** The documents of the specification's example, as the loader stores
    them. *)
Definition a_md : str :=
  lit "# Strategy" ++ [LF; LF] ++ lit "Win without fighting." ++ [LF; LF]
    ++ lit "Plan carefully.".

Definition b_md : str := lit "# Tactics" ++ [LF; LF] ++ lit "Fight smart.".

Definition example_dir : data_dir :=
  {| dir_path := lit "/app/data";
     dir_exists := true;
     dir_glob_md :=
       [ {| md_name := lit "a.md"; md_path := lit "/app/data/a.md";
            md_read := inl a_md |};
         {| md_name := lit "b.md"; md_path := lit "/app/data/b.md";
            md_read := inl b_md |} ] |}.

Definition example_docs : dict Document :=
  Eval cbv in documents (snd (init example_dir)).

(** The two values stored, and the results [search] gives for them when
    asked for [fight]. *)
Definition a_doc : Document :=
  {| doc_title := lit "Strategy"; doc_content := a_md;
     doc_file_path := lit "/app/data/a.md" |}.

Definition b_doc : Document :=
  {| doc_title := lit "Tactics"; doc_content := b_md;
     doc_file_path := lit "/app/data/b.md" |}.

Definition a_result : SearchResult :=
  {| title := lit "Strategy"; content := lit "Win without fighting.";
     relevance_score := 1; file_path := lit "a.md" |}.

Definition b_result : SearchResult :=
  {| title := lit "Tactics"; content := lit "Fight smart.";
     relevance_score := 1; file_path := lit "b.md" |}.

(** A directory that does not exist. *)
Definition missing_dir : data_dir :=
  {| dir_path := lit "/app/data"; dir_exists := false; dir_glob_md := [] |}.

(* ================================================================= *)
(** ** Notions used in the statements *)

Section Notions.

Variable lower : str -> str.

(** The words [search] derives from a query. *)
Definition query_words (query : str) : list str := split_ws (lower query).

(** A query matches a document when one of its words occurs in the
    lowercased content. *)
Definition matches (query : str) (d : Document) : bool :=
  existsb (fun word => contains (lower (doc_content d)) word)
          (query_words query).

(** The sum, over the words, of their counts in a lowercased content. *)
Definition sum_counts (content_lower : str) (words : list str) : Z :=
  fold_right Z.add 0%Z (map (count content_lower) words).

(** The score [search] gives a document. *)
Definition score_in (query : str) (d : Document) : Z :=
  doc_score (lower (doc_content d)) (query_words query).

(** The result [search] builds for an item of the dictionary. *)
Definition result_for (query : str) (item : str * Document) : SearchResult :=
  {| title := doc_title (snd item);
     content := extract_relevant_content lower (doc_content (snd item))
                  (query_words query);
     relevance_score := score_in query (snd item);
     file_path := fst item |}.

(** The items [search] turns into results, in insertion order. *)
Definition found (query : str) (docs : dict Document) : dict Document :=
  filter (fun item => (0 <? score_in query (snd item))%Z) docs.

(** The paragraphs [extract_relevant_content] keeps. *)
Definition qualifies (words : list str) (paragraph : str) : bool :=
  existsb (fun word => contains (lower paragraph) word) words.

(** Follows the specification's words: a token occurs in a paragraph as a
    case-insensitive substring when it does after both are lowercased. *)
Definition contains_ignoring_case (paragraph token : str) : bool :=
  contains (lower paragraph) (lower token).

(** Follows the specification's words: the excerpt made of the first three
    paragraphs that contain a token as a case-insensitive substring. *)
Definition spec_extract_relevant_content (content : str)
  (tokens : list str) : str :=
  join [LF; LF]
    (firstn 3
       (map strip
          (filter (fun p => existsb (contains_ignoring_case p) tokens)
                  (split content [LF; LF])))).

End Notions.

(** Follows the specification's words: the opening of the answer,
    [From '<title>':] and a blank line. *)
Definition spec_answer_opening (t : str) : str :=
  lit "From '" ++ t ++ lit "':" ++ [LF; LF].

(** A result list of one element, to run [generate_answer] on. *)
Definition sample_result : SearchResult :=
  {| title := lit "T"; content := lit "c"; relevance_score := 1;
     file_path := lit "a.md" |}.

(** Descending order of keys, and of scores. *)
Definition key_ge {A : Type} (key : A -> Z) (a b : A) : Prop :=
  (key b <= key a)%Z.

Definition score_ge : SearchResult -> SearchResult -> Prop :=
  key_ge relevance_score.

(** A string without whitespace. *)
Definition no_space (s : str) : bool := forallb (fun c => negb (isspace c)) s.

(** A string of ASCII characters. *)
Definition is_ascii (s : str) : bool := forallb (fun c => (c <? 128)%N) s.

(* ================================================================= *)
(** ** The endpoints *)

(** [QueryRequest] *)
Record QueryRequest := {
  req_question : str;
  req_max_results : Z
}.

(** [QueryResponse] *)
Record QueryResponse := {
  resp_question : str;
  resp_results : list SearchResult;
  resp_answer : str
}.

(** The reply of [GET /health]. *)
Record HealthResponse := {
  status : str;
  documents_loaded : Z
}.

Section Endpoints.

Variable lower : str -> str.

(** [search_knowledge], the handler of [POST /search], on the store of the
    global [kb].  The two calls of its body raise nothing, so the handler
    that turns an exception into a response of status 500 is not
    entered. *)
Definition search_knowledge (kb : dict Document) (query : QueryRequest)
  : QueryResponse :=
  let results := search lower kb (req_question query) (req_max_results query) in
  let answer := generate_answer (req_question query) results in
  {| resp_question := req_question query;
     resp_results := results;
     resp_answer := answer |}.

(** [health_check] *)
Definition health_check (kb : dict Document) : HealthResponse :=
  {| status := lit "healthy";
     documents_loaded := Z.of_nat (length kb) |}.

(** [list_documents]: the file name and the title of every item. *)
Definition list_documents (kb : dict Document) : list (str * str) :=
  map (fun item => (fst item, doc_title (snd item))) kb.

End Endpoints.

(** The store the global [kb] holds once the module is loaded. *)
Definition kb_documents (d : data_dir) : dict Document :=
  documents (snd (init d)).

(** What one pass of the loop of [load_documents] does to the
    dictionary. *)
Definition store_file (docs : dict Document) (f : md_file) : dict Document :=
  match md_read f with
  | inl text =>
      dict_set docs (md_name f)
        {| doc_title := extract_title text;
           doc_content := text;
           doc_file_path := md_path f |}
  | inr _ => docs
  end.

(** The line one pass of the loop of [load_documents] prints. *)
Definition report_file (f : md_file) : str :=
  match md_read f with
  | inl _ => lit "Loaded: " ++ md_name f
  | inr e => lit "Error loading " ++ md_path f ++ lit ": " ++ exn_msg e
  end.

(** A file that can be read. *)
Definition readable (f : md_file) : bool :=
  match md_read f with inl _ => true | inr _ => false end.

(** A string that neither starts nor ends with whitespace. *)
Definition trimmed (s : str) : Prop :=
  match s with
  | [] => True
  | c :: _ => isspace c = false /\ isspace (last s c) = false
  end.

(** The lengths of the pieces of a text, each counted with one separator
    of length [n]. *)
Definition weight (n : nat) (ps : list str) : nat :=
  list_sum (map (fun p => length p + n) ps).

(** A paragraph as [split] cuts them and [strip] leaves them: no blank
    line inside, no line feed at either end. *)
Fixpoint no_blank_line (s : str) : bool :=
  match s with
  | [] => true
  | c :: s' =>
      negb ((c =? LF)%N && match s' with
                           | [] => false
                           | c' :: _ => (c' =? LF)%N
                           end)
      && no_blank_line s'
  end.

(** The same directory with another list of files. *)
Definition with_files (d : data_dir) (files : list md_file) : data_dir :=
  {| dir_path := dir_path d; dir_exists := dir_exists d;
     dir_glob_md := files |}.

(** A directory with one file that cannot be read between two that
    can. *)
Definition broken_file : md_file :=
  {| md_name := lit "c.md"; md_path := lit "/app/data/c.md";
     md_read := inr (Exception (lit "Permission denied")) |}.

Definition broken_dir : data_dir :=
  {| dir_path := lit "/app/data";
     dir_exists := true;
     dir_glob_md :=
       [ {| md_name := lit "a.md"; md_path := lit "/app/data/a.md";
            md_read := inl a_md |};
         broken_file;
         {| md_name := lit "b.md"; md_path := lit "/app/data/b.md";
            md_read := inl b_md |} ] |}.

(* ================================================================= *)
(** ** Facts about the built-ins *)

Unset Implicit Arguments.

Section PyFacts.

Lemma startswith_nil (s : str) : startswith s [] = true.
Proof. now destruct s. Qed.

Lemma startswith_iff (s p : str) :
  startswith s p = true <-> exists t, s = p ++ t.
Proof.
  revert s; induction p as [|a p IH]; intros s; simpl.
  - split; [intros _; now exists s | reflexivity].
  - destruct s as [|b s].
    + split; [discriminate | intros [t Ht]; discriminate].
    + rewrite andb_true_iff, N.eqb_eq, IH. split.
      * intros [-> [t ->]]. now exists t.
      * intros [t Ht]. injection Ht as -> ->. split; [reflexivity | now exists t].
Qed.

Lemma startswith_length (s p : str) :
  startswith s p = true -> length p <= length s.
Proof.
  rewrite startswith_iff. intros [t ->]. rewrite length_app. lia.
Qed.

Lemma contains_cons (c : char) (s sub : str) :
  contains (c :: s) sub = startswith (c :: s) sub || contains s sub.
Proof. reflexivity. Qed.

Lemma contains_nil_r (s : str) : contains s [] = true.
Proof. destruct s; reflexivity. Qed.

Lemma contains_iff (s sub : str) :
  contains s sub = true <-> exists a b, s = a ++ sub ++ b.
Proof.
  induction s as [|c s IH].
  - simpl. rewrite orb_false_r, startswith_iff. split.
    + intros [t Ht]. exists [], t. exact Ht.
    + intros [a [b H]]. symmetry in H.
      apply app_eq_nil in H as [-> H]. apply app_eq_nil in H as [-> ->].
      now exists [].
  - rewrite contains_cons, orb_true_iff, startswith_iff, IH. split.
    + intros [[t Ht] | [a [b Hab]]].
      * exists [], t. exact Ht.
      * exists (c :: a), b. now rewrite Hab.
    + intros [[|x a] [b H]].
      * left. now exists b.
      * right. injection H as -> ->. now exists a, b.
Qed.

Lemma contains_app_l (s t sub : str) :
  contains s sub = true -> contains (s ++ t) sub = true.
Proof.
  rewrite !contains_iff. intros [a [b ->]]. exists a, (b ++ t).
  now rewrite <- !app_assoc.
Qed.

Lemma contains_app_r (s t sub : str) :
  contains t sub = true -> contains (s ++ t) sub = true.
Proof.
  rewrite !contains_iff. intros [a [b ->]]. exists (s ++ a), b.
  now rewrite <- !app_assoc.
Qed.

(** A prefix that avoids a character ends before its first occurrence. *)
Lemma startswith_before (c : char) (x y w : str) :
  ~ In c w -> startswith (x ++ c :: y) w = true -> startswith x w = true.
Proof.
  revert x; induction w as [|a w IH]; intros x Hc; simpl; [reflexivity|].
  destruct x as [|b x]; simpl.
  - rewrite andb_true_iff, N.eqb_eq. intros [-> _]. exfalso. apply Hc. now left.
  - rewrite !andb_true_iff. intros [-> H]. split; [reflexivity|].
    apply IH; [|exact H]. intros Hin. apply Hc. now right.
Qed.

(** An occurrence of a word cannot span a character the word lacks. *)
Lemma contains_split_at (c : char) (x y w : str) :
  ~ In c w -> contains (x ++ c :: y) w = true ->
  contains x w = true \/ contains y w = true.
Proof.
  intros Hc. induction x as [|b x IH]; simpl app.
  - rewrite contains_cons, orb_true_iff. intros [H | H]; [|now right].
    left. apply (startswith_before c [] y w Hc) in H.
    simpl. now rewrite H.
  - rewrite contains_cons, orb_true_iff. intros [H | H].
    + left. rewrite contains_cons.
      apply (startswith_before c (b :: x) y w Hc) in H. now rewrite H.
    + destruct (IH H) as [H' | H']; [left | now right].
      rewrite contains_cons, H'. apply orb_true_r.
Qed.

(** *** Counting *)

Lemma count_from_nonneg (sub : str) (k : nat) (s : str) :
  (0 <= count_from sub k s)%Z.
Proof.
  revert k; induction s as [|c s IH]; intros k; cbn [count_from]; [lia|].
  destruct k as [|k]; [|apply IH].
  destruct (startswith (c :: s) sub); [|apply IH].
  specialize (IH (length sub - 1)). lia.
Qed.

Lemma count_from_absent (sub : str) (k : nat) (s : str) :
  contains s sub = false -> count_from sub k s = 0%Z.
Proof.
  revert k; induction s as [|c s IH]; intros k H; [reflexivity|].
  rewrite contains_cons in H. apply orb_false_iff in H as [H1 H2].
  cbn [count_from]. destruct k as [|k]; [rewrite H1|]; now apply IH.
Qed.

Lemma count_from_present (a : char) (sub s : str) :
  contains s (a :: sub) = true -> (0 < count_from (a :: sub) 0 s)%Z.
Proof.
  induction s as [|c s IH]; [discriminate|].
  rewrite contains_cons. intros H. cbn [count_from].
  destruct (startswith (c :: s) (a :: sub)).
  - pose proof (count_from_nonneg (a :: sub) (length (a :: sub) - 1) s). lia.
  - apply IH. exact H.
Qed.

Lemma count_nonneg (s sub : str) : (0 <= count s sub)%Z.
Proof.
  destruct sub; simpl; [lia | apply count_from_nonneg].
Qed.

Lemma count_absent (s sub : str) :
  contains s sub = false -> count s sub = 0%Z.
Proof.
  destruct sub as [|a sub]; [now rewrite contains_nil_r|].
  apply count_from_absent.
Qed.

Lemma count_present (s sub : str) :
  contains s sub = true -> (0 < count s sub)%Z.
Proof.
  destruct sub as [|a sub]; [simpl; lia | apply count_from_present].
Qed.

(** *** Splitting at whitespace *)

Lemma split_ws_from_words (cur s w : str) :
  no_space cur = true -> In w (split_ws_from cur s) ->
  w <> [] /\ no_space w = true.
Proof.
  revert cur; induction s as [|c s IH]; intros cur Hcur; simpl.
  - destruct cur; [contradiction|].
    intros [<- | []]. split; [discriminate | exact Hcur].
  - destruct (isspace c) eqn:Ec.
    + destruct cur as [|x cur]; [now apply IH|].
      intros [<- | H]; [split; [discriminate | exact Hcur] | now apply (IH [])].
    + apply IH. unfold no_space. rewrite forallb_app. fold (no_space cur).
      rewrite Hcur. simpl. now rewrite Ec.
Qed.

Lemma split_ws_words (s w : str) :
  In w (split_ws s) -> w <> [] /\ no_space w = true.
Proof. now apply split_ws_from_words. Qed.

Lemma no_space_no_LF (w : str) : no_space w = true -> ~ In LF w.
Proof.
  unfold no_space. rewrite forallb_forall. intros H Hin.
  apply H in Hin. discriminate.
Qed.

(** *** Splitting at a separator and joining *)

Lemma split_from_nonempty (sep : str) (k : nat) (cur s : str) :
  split_from sep k cur s <> [].
Proof.
  revert k cur; induction s as [|c s IH]; intros k cur; simpl; [discriminate|].
  destruct k; [|apply IH]. destruct (startswith (c :: s) sep); [discriminate|].
  apply IH.
Qed.

Lemma join_cons (sep x : str) (l : list str) :
  l <> [] -> join sep (x :: l) = x ++ sep ++ join sep l.
Proof. destruct l; [contradiction | reflexivity]. Qed.

Lemma join_split_from (sep : str) (k : nat) (cur s : str) :
  sep <> [] -> k <= length s ->
  join sep (split_from sep k cur s) = cur ++ skipn k s.
Proof.
  intros Hsep. revert k cur; induction s as [|c s IH]; intros k cur Hk.
  - simpl in Hk. replace k with 0 by lia. simpl. now rewrite app_nil_r.
  - simpl split_from. destruct k as [|k].
    + destruct (startswith (c :: s) sep) eqn:Hs.
      * rewrite join_cons by apply split_from_nonempty.
        pose proof (startswith_length _ _ Hs) as Hlen.
        apply startswith_iff in Hs as [t Ht].
        destruct sep as [|a sep]; [contradiction|].
        simpl in Hlen. rewrite IH by (simpl; lia).
        simpl in Ht. injection Ht as -> ->.
        replace (length (a :: sep) - 1) with (length sep) by (simpl; lia).
        rewrite skipn_app, skipn_all, Nat.sub_diag. reflexivity.
      * rewrite IH by lia. simpl. now rewrite <- app_assoc.
    + simpl in Hk. rewrite IH by lia. reflexivity.
Qed.

Lemma join_split (s sep : str) : sep <> [] -> join sep (split s sep) = s.
Proof.
  intros Hsep. unfold split. now rewrite join_split_from by (auto; lia).
Qed.

Lemma join_nonempty (sep x : str) (l : list str) :
  x <> [] -> join sep (x :: l) <> [].
Proof.
  intros Hx. destruct l; simpl; [exact Hx|].
  destruct x; [contradiction | discriminate].
Qed.

(** *** Stripping *)

Lemma lstrip_keeps_nonspace (s : str) :
  forallb isspace s = false -> forallb isspace (lstrip s) = false.
Proof.
  induction s as [|c s IH]; simpl; [discriminate|].
  destruct (isspace c) eqn:Ec; simpl; [exact IH | now rewrite Ec].
Qed.

Lemma forallb_rev {A : Type} (f : A -> bool) (l : list A) :
  forallb f (rev l) = forallb f l.
Proof.
  induction l as [|x l IH]; [reflexivity|].
  simpl. rewrite forallb_app, IH. simpl. rewrite andb_true_r. apply andb_comm.
Qed.

Lemma strip_nonempty (s : str) : forallb isspace s = false -> strip s <> [].
Proof.
  intros H. unfold strip, rstrip. apply lstrip_keeps_nonspace in H.
  rewrite <- forallb_rev in H. apply lstrip_keeps_nonspace in H.
  rewrite <- forallb_rev in H. intros E. rewrite E in H. discriminate.
Qed.

Lemma contains_word_nonspace (s w : str) :
  w <> [] -> no_space w = true -> contains s w = true ->
  forallb isspace s = false.
Proof.
  intros Hw Hns H. apply contains_iff in H as [a [b ->]].
  destruct w as [|c w]; [contradiction|].
  simpl in Hns. apply andb_true_iff in Hns as [Hc _].
  rewrite !forallb_app. simpl.
  destruct (isspace c); [discriminate|]. apply andb_false_r.
Qed.

(** *** Slices and prefixes *)

Lemma In_firstn {A : Type} (j : nat) (l : list A) (x : A) :
  In x (firstn j l) -> In x l.
Proof.
  intros H. rewrite <- (firstn_skipn j l). apply in_or_app. now left.
Qed.

Lemma slice_to_firstn {A : Type} (l : list A) (n : Z) :
  exists j, slice_to l n = firstn j l.
Proof.
  unfold slice_to. destruct (0 <=? n)%Z; eexists; reflexivity.
Qed.

Lemma slice_to_length {A : Type} (l : list A) (n : Z) :
  (0 <= n)%Z -> (Z.of_nat (length (slice_to l n)) <= n)%Z.
Proof.
  intros Hn. unfold slice_to. apply Z.leb_le in Hn as Hb. rewrite Hb.
  rewrite length_firstn. lia.
Qed.

Lemma slice_to_all {A : Type} (l : list A) (n : Z) :
  (Z.of_nat (length l) <= n)%Z -> slice_to l n = l.
Proof.
  intros Hn. unfold slice_to.
  replace (0 <=? n)%Z with true by (symmetry; apply Z.leb_le; lia).
  apply firstn_all2. lia.
Qed.

Lemma slice_to_In {A : Type} (l : list A) (n : Z) (x : A) :
  In x (slice_to l n) -> In x l.
Proof.
  destruct (slice_to_firstn l n) as [j ->]. apply In_firstn.
Qed.

Lemma filter_firstn {A : Type} (f : A -> bool) (j : nat) (l : list A) :
  exists n, filter f (firstn j l) = firstn n (filter f l).
Proof.
  revert j; induction l as [|x l IH]; intros j.
  - exists 0. now rewrite firstn_nil.
  - destruct j as [|j]; [now exists 0|].
    destruct (IH j) as [n Hn]. simpl. destruct (f x).
    + exists (S n). simpl. now rewrite Hn.
    + now exists n.
Qed.

Lemma StronglySorted_firstn {A : Type} (R : A -> A -> Prop) (j : nat)
  (l : list A) : StronglySorted R l -> StronglySorted R (firstn j l).
Proof.
  intros H. revert j; induction H as [|x l Hl IH Hx]; intros j.
  - rewrite firstn_nil. constructor.
  - destruct j as [|j]; simpl; constructor; [apply IH|].
    rewrite Forall_forall in *. intros y Hy. apply Hx.
    now apply In_firstn in Hy.
Qed.

(** *** The stable descending sort *)

Section Sort.

Context {A : Type} (key : A -> Z).

Lemma insert_desc_perm (x : A) (l : list A) :
  Permutation (x :: l) (insert_desc key x l).
Proof.
  induction l as [|y l IH]; simpl; [reflexivity|].
  destruct (key x <? key y)%Z; [|reflexivity].
  rewrite perm_swap. now constructor.
Qed.

Lemma sort_desc_perm (l : list A) : Permutation l (sort_desc key l).
Proof.
  induction l as [|x l IH]; simpl; [constructor|].
  rewrite <- insert_desc_perm. now constructor.
Qed.

Lemma insert_desc_sorted (x : A) (l : list A) :
  StronglySorted (key_ge key) l -> StronglySorted (key_ge key) (insert_desc key x l).
Proof.
  induction 1 as [|y l Hl IH Hy]; simpl.
  - repeat constructor.
  - destruct (key x <? key y)%Z eqn:E.
    + constructor; [exact IH|].
      apply (Permutation_Forall (insert_desc_perm x l)).
      constructor; [|exact Hy]. apply Z.ltb_lt in E. unfold key_ge. lia.
    + apply Z.ltb_ge in E. constructor; [now constructor|].
      constructor; [exact E|].
      rewrite Forall_forall in *. intros z Hz. specialize (Hy z Hz).
      unfold key_ge in *. lia.
Qed.

Lemma sort_desc_sorted (l : list A) : StronglySorted (key_ge key) (sort_desc key l).
Proof.
  induction l as [|x l IH]; simpl; [constructor | now apply insert_desc_sorted].
Qed.

(** Stability: the elements of each key keep their order. *)
Lemma insert_desc_stable (k : Z) (x : A) (l : list A) :
  filter (fun a => key a =? k)%Z (insert_desc key x l)
  = filter (fun a => key a =? k)%Z (x :: l).
Proof.
  induction l as [|y l IH]; [reflexivity|].
  simpl insert_desc. destruct (key x <? key y)%Z eqn:E; [|reflexivity].
  apply Z.ltb_lt in E. simpl filter in *. rewrite IH.
  destruct (key x =? k)%Z eqn:Ex, (key y =? k)%Z eqn:Ey; try reflexivity.
  apply Z.eqb_eq in Ex, Ey. lia.
Qed.

Lemma sort_desc_stable (k : Z) (l : list A) :
  filter (fun a => key a =? k)%Z (sort_desc key l)
  = filter (fun a => key a =? k)%Z l.
Proof.
  induction l as [|x l IH]; [reflexivity|].
  simpl sort_desc. rewrite insert_desc_stable. simpl. now rewrite IH.
Qed.

End Sort.

End PyFacts.

(* ================================================================= *)
(** ** Facts about the program *)

Section ProgramFacts.

Variable lower : str -> str.

(** *** Scoring *)

Lemma score_fold (cl : str) (words : list str) (acc : Z) :
  fold_left (score_step cl) words acc = (acc + sum_counts cl words)%Z.
Proof.
  revert acc; induction words as [|w words IH]; intros acc.
  - unfold sum_counts. cbn [fold_left map fold_right]. lia.
  - cbn [fold_left]. rewrite IH. unfold sum_counts, score_step.
    cbn [map fold_right]. destruct (contains cl w) eqn:E; [lia|].
    rewrite (count_absent _ _ E). lia.
Qed.

Lemma doc_score_sum (cl : str) (words : list str) :
  doc_score cl words = sum_counts cl words.
Proof. unfold doc_score. rewrite score_fold. lia. Qed.

Lemma sum_counts_nonneg (cl : str) (words : list str) :
  (0 <= sum_counts cl words)%Z.
Proof.
  induction words as [|w words IH]; unfold sum_counts in *;
    cbn [map fold_right]; [lia|].
  pose proof (count_nonneg cl w). lia.
Qed.

Lemma sum_counts_pos (cl : str) (words : list str) :
  (0 < sum_counts cl words)%Z <->
  existsb (fun word => contains cl word) words = true.
Proof.
  induction words as [|w words IH]; unfold sum_counts in *;
    cbn [map fold_right existsb].
  - split; [lia | discriminate].
  - rewrite orb_true_iff, <- IH.
    pose proof (count_nonneg cl w) as Hw.
    pose proof (sum_counts_nonneg cl words) as Hs. unfold sum_counts in Hs.
    destruct (contains cl w) eqn:E.
    + pose proof (count_present _ _ E). split; [now left | lia].
    + rewrite (count_absent _ _ E). split; [intros H; right; lia|].
      intros [H | H]; [discriminate | lia].
Qed.

Lemma score_in_sum (q : str) (d : Document) :
  score_in lower q d
  = sum_counts (lower (doc_content d)) (query_words lower q).
Proof. apply doc_score_sum. Qed.

Lemma score_in_pos (q : str) (d : Document) :
  (0 <? score_in lower q d)%Z = matches lower q d.
Proof.
  unfold matches. rewrite score_in_sum.
  destruct (existsb _ _) eqn:E.
  - apply Z.ltb_lt, sum_counts_pos, E.
  - apply Z.ltb_ge. apply Z.nlt_ge. intros H.
    apply sum_counts_pos in H. congruence.
Qed.

(** *** The two loops as filters *)

Lemma search_fold (q : str) (docs : dict Document) (acc : list SearchResult) :
  fold_left (search_step lower (lower q)) docs acc
  = acc ++ map (result_for lower q) (found lower q docs).
Proof.
  revert acc; induction docs as [|[k d] docs IH]; intros acc.
  - simpl. now rewrite app_nil_r.
  - cbn [fold_left found filter]. rewrite IH. unfold search_step.
    fold (query_words lower q). fold (score_in lower q d). cbn [snd].
    destruct (0 <? score_in lower q d)%Z; [|reflexivity].
    now rewrite <- app_assoc.
Qed.

Lemma search_unfold (docs : dict Document) (q : str) (m : Z) :
  search lower docs q m
  = slice_to (sort_desc relevance_score
                (map (result_for lower q) (found lower q docs))) m.
Proof. unfold search. now rewrite search_fold. Qed.

Lemma relevant_fold (words ps acc : list str) :
  fold_left (relevant_step lower words) ps acc
  = acc ++ map strip (filter (qualifies lower words) ps).
Proof.
  revert acc; induction ps as [|p ps IH]; intros acc.
  - simpl. now rewrite app_nil_r.
  - cbn [fold_left filter]. rewrite IH. unfold relevant_step.
    fold (qualifies lower words p).
    destruct (qualifies lower words p); [|reflexivity].
    now rewrite <- app_assoc.
Qed.

Lemma extract_relevant_content_eq (content : str) (words : list str) :
  extract_relevant_content lower content words
  = join [LF; LF]
      (firstn 3 (map strip (filter (qualifies lower words)
                                   (split content [LF; LF])))).
Proof. unfold extract_relevant_content. now rewrite relevant_fold. Qed.

(** Every result comes from an item of the dictionary with a positive
    score. *)
Lemma search_In (docs : dict Document) (q : str) (m : Z) (r : SearchResult) :
  In r (search lower docs q m) ->
  exists item, In item docs /\ r = result_for lower q item
               /\ (0 < score_in lower q (snd item))%Z.
Proof.
  rewrite search_unfold. intros H. apply slice_to_In in H.
  apply (Permutation_in _ (Permutation_sym (sort_desc_perm _ _))) in H.
  apply in_map_iff in H as [item [<- H]].
  apply filter_In in H as [H1 H2]. apply Z.ltb_lt in H2. now exists item.
Qed.

Lemma filter_none {A : Type} (f : A -> bool) (l : list A) :
  (forall x, In x l -> f x = false) -> filter f l = [].
Proof.
  induction l as [|x l IH]; intros H; [reflexivity|].
  simpl. rewrite (H x) by now left. apply IH. intros y Hy. apply H. now right.
Qed.

(** *** Dictionaries *)

Lemma keys_unique {V : Type} (d : dict V) (k : str) (v v' : V) :
  NoDup (keys d) -> In (k, v) d -> In (k, v') d -> v = v'.
Proof.
  induction d as [|[k0 v0] d IH]; [contradiction|].
  unfold keys. cbn [map fst]. intros Hnd H1 H2.
  apply NoDup_cons_iff in Hnd as [Hk Hnd].
  assert (Hin : forall w, In (k0, w) d -> False).
  { intros w Hw. apply Hk. change k0 with (fst (k0, w)). now apply in_map. }
  destruct H1 as [H1 | H1], H2 as [H2 | H2].
  - congruence.
  - injection H1 as -> ->. now apply Hin in H2.
  - injection H2 as -> ->. now apply Hin in H1.
  - now apply IH.
Qed.

Lemma keys_dict_set {V : Type} (d : dict V) (k : str) (v : V) :
  keys (dict_set d k v) = if in_dec str_eq_dec k (keys d) then keys d
                          else keys d ++ [k].
Proof.
  induction d as [|[k0 v0] d IH]; [reflexivity|].
  cbn [dict_set]. destruct (str_eq_dec k k0) as [-> | Hne].
  - unfold keys. cbn [map fst].
    destruct (in_dec str_eq_dec k0 (k0 :: map fst d)) as [_ | Hn];
      [reflexivity | exfalso; apply Hn; now left].
  - unfold keys in *. cbn [map fst]. rewrite IH.
    destruct (in_dec str_eq_dec k (map fst d)) as [Hi | Hi],
             (in_dec str_eq_dec k (k0 :: map fst d)) as [Hj | Hj];
      try reflexivity.
    + exfalso. apply Hj. now right.
    + exfalso. destruct Hj as [Hj | Hj]; [now apply Hne | now apply Hi].
Qed.

Lemma dict_set_NoDup {V : Type} (d : dict V) (k : str) (v : V) :
  NoDup (keys d) -> NoDup (keys (dict_set d k v)).
Proof.
  intros H. rewrite keys_dict_set.
  destruct (in_dec str_eq_dec k (keys d)) as [Hi | Hi]; [exact H|].
  apply NoDup_rev in H. rewrite <- (rev_involutive (keys d ++ [k])).
  apply NoDup_rev. rewrite rev_app_distr. simpl. constructor; [|exact H].
  now rewrite <- in_rev.
Qed.

(** *** Loading *)


Lemma load_documents_keys (d : data_dir) (st : kb_state) :
  NoDup (keys (documents st)) ->
  NoDup (keys (documents (snd (load_documents d st)))).
Proof.
  unfold load_documents. destruct (dir_exists d); [|trivial].
  cbn [negb]. revert st.
  induction (dir_glob_md d) as [|f fs IH]; intros st Hst; [exact Hst|].
  cbn [for_each]. unfold bind at 1.
  unfold try_except at 1, bind at 1, read_text.
  destruct (md_read f) as [text | e]; cbn; apply IH; cbn; [|exact Hst].
  now apply dict_set_NoDup.
Qed.

End ProgramFacts.

(* ================================================================= *)
(** ** Dependence on [str.lower] *)

(** [search] applies [str.lower] to the query, to each content and to each
    paragraph; two lowercasing functions that agree there give the same
    results. *)

Lemma extract_relevant_content_ext (lower lower' : str -> str)
  (content : str) (words : list str) :
  (forall p, In p (split content [LF; LF]) -> lower p = lower' p) ->
  extract_relevant_content lower content words
  = extract_relevant_content lower' content words.
Proof.
  intros H. rewrite !extract_relevant_content_eq. do 3 f_equal.
  apply filter_ext_in. intros p Hp. unfold qualifies. now rewrite (H p Hp).
Qed.

Lemma search_ext (lower lower' : str -> str) (docs : dict Document)
  (q : str) (m : Z) :
  lower q = lower' q ->
  (forall item, In item docs ->
     lower (doc_content (snd item)) = lower' (doc_content (snd item))
     /\ forall p, In p (split (doc_content (snd item)) [LF; LF]) ->
                  lower p = lower' p) ->
  search lower docs q m = search lower' docs q m.
Proof.
  intros Hq Hdocs. rewrite !search_unfold. do 2 f_equal.
  assert (Hs : forall item, In item docs ->
                 score_in lower q (snd item) = score_in lower' q (snd item)).
  { intros item Hi. unfold score_in, query_words.
    now rewrite Hq, (proj1 (Hdocs item Hi)). }
  assert (Hf : found lower q docs = found lower' q docs).
  { unfold found. apply filter_ext_in. intros item Hi. now rewrite Hs. }
  rewrite Hf. apply map_ext_in. intros item Hi.
  apply filter_In in Hi as [Hi _]. unfold result_for.
  rewrite (Hs item Hi). unfold query_words. rewrite Hq.
  now rewrite (extract_relevant_content_ext lower lower' _ _
                 (proj2 (Hdocs item Hi))).
Qed.

(** *** The ASCII instance *)

Lemma lower_ascii_app (a b : str) :
  lower_ascii (a ++ b) = lower_ascii a ++ lower_ascii b.
Proof. apply map_app. Qed.

Lemma lower_ascii_paragraphs (a b : str) :
  lower_ascii (a ++ [LF; LF] ++ b)
  = lower_ascii a ++ [LF; LF] ++ lower_ascii b.
Proof. now rewrite !lower_ascii_app. Qed.

Lemma lower_char_space (c : char) : isspace c = true -> lower_char c = c.
Proof.
  unfold lower_char.
  destruct ((65 <=? c) && (c <=? 90))%N eqn:E; [|reflexivity].
  apply andb_true_iff in E as [E1 E2]. apply N.leb_le in E1, E2.
  unfold isspace. intros H. exfalso. revert H.
  rewrite ?orb_true_iff, ?andb_true_iff, ?N.leb_le, ?N.eqb_eq. lia.
Qed.

Lemma lower_ascii_space (s : str) :
  forallb isspace s = true -> forallb isspace (lower_ascii s) = true.
Proof.
  induction s as [|c s IH]; [reflexivity|]. cbn [forallb lower_ascii map].
  rewrite !andb_true_iff. intros [Hc Hs].
  rewrite (lower_char_space c Hc). split; [exact Hc | now apply IH].
Qed.

(** *** Paragraphs *)

Section Paragraphs.

Variable lower : str -> str.

(** Lowercasing goes through a blank line. *)
Hypothesis lower_paragraphs :
  forall a b, lower (a ++ [LF; LF] ++ b) = lower a ++ [LF; LF] ++ lower b.

(** Lowercasing whitespace gives whitespace. *)
Hypothesis lower_space :
  forall s, forallb isspace s = true -> forallb isspace (lower s) = true.

Lemma lower_join (ps : list str) :
  ps <> [] -> lower (join [LF; LF] ps) = join [LF; LF] (map lower ps).
Proof.
  induction ps as [|p ps IH]; [contradiction|]. intros _.
  destruct ps as [|p' ps]; [reflexivity|].
  rewrite join_cons by discriminate.
  rewrite lower_paragraphs, IH by discriminate.
  cbn [map]. now rewrite (join_cons _ (lower p)) by discriminate.
Qed.

Lemma contains_join (ps : list str) (w : str) :
  ~ In LF w -> ps <> [] -> contains (join [LF; LF] ps) w = true ->
  exists p, In p ps /\ contains p w = true.
Proof.
  intros Hw. induction ps as [|p ps IH]; [contradiction|]. intros _.
  destruct ps as [|p' ps].
  - intros H. exists p. split; [now left | exact H].
  - rewrite join_cons by discriminate. intros H.
    apply (contains_split_at LF) in H as [H | H]; [| |exact Hw].
    + exists p. split; [now left | exact H].
    + apply (contains_split_at LF [] _ w Hw) in H as [H | H].
      * exists p. split; [now left|].
        apply contains_iff in H as [a [b H]]. symmetry in H.
        apply app_eq_nil in H as [_ H]. apply app_eq_nil in H as [-> _].
        apply contains_nil_r.
      * destruct (IH ltac:(discriminate) H) as [p0 [Hp0 Hc]].
        exists p0. split; [now right | exact Hc].
Qed.

(** A word without line feed found in the lowercased content lies in one
    lowercased paragraph. *)
Lemma word_in_paragraph (content w : str) :
  ~ In LF w -> contains (lower content) w = true ->
  exists p, In p (split content [LF; LF]) /\ contains (lower p) w = true.
Proof.
  intros Hw H.
  rewrite <- (join_split content [LF; LF]) in H by discriminate.
  rewrite lower_join in H by apply split_from_nonempty.
  apply contains_join in H as [p' [Hp' Hc]]; [|exact Hw|].
  - apply in_map_iff in Hp' as [p [<- Hp]]. now exists p.
  - intros E. apply map_eq_nil in E. revert E. apply split_from_nonempty.
Qed.

(** A paragraph that qualifies by a word of the query is not blank. *)
Lemma qualifying_paragraph_not_blank (q p : str) :
  qualifies lower (query_words lower q) p = true -> strip p <> [].
Proof.
  unfold qualifies. intros H. apply existsb_exists in H as [w [Hw Hc]].
  apply split_ws_words in Hw as [Hne Hns].
  apply strip_nonempty.
  pose proof (contains_word_nonspace _ _ Hne Hns Hc) as Hl.
  destruct (forallb isspace p) eqn:E; [|reflexivity].
  apply lower_space in E. congruence.
Qed.

Lemma excerpt_nonempty (q content : str) :
  existsb (fun word => contains (lower content) word) (query_words lower q)
  = true ->
  extract_relevant_content lower content (query_words lower q) <> [].
Proof.
  intros H. apply existsb_exists in H as [w [Hw Hc]].
  pose proof (split_ws_words _ _ Hw) as [_ Hns].
  apply word_in_paragraph in Hc as [p [Hp Hc]]; [|now apply no_space_no_LF].
  rewrite extract_relevant_content_eq.
  assert (Hq : In p (filter (qualifies lower (query_words lower q))
                            (split content [LF; LF]))).
  { apply filter_In. split; [exact Hp|]. unfold qualifies.
    apply existsb_exists. now exists w. }
  destruct (filter _ _) as [|p0 ps] eqn:E; [contradiction|].
  assert (Hp0 : qualifies lower (query_words lower q) p0 = true).
  { assert (In p0 (filter (qualifies lower (query_words lower q))
                          (split content [LF; LF])))
      by (rewrite E; now left).
    now apply filter_In in H. }
  cbn [map firstn]. apply join_nonempty.
  now apply (qualifying_paragraph_not_blank q).
Qed.

End Paragraphs.


(* ================================================================= *)
(** ** The properties of the specification *)

Section Claims.

Variable lower : str -> str.

(** C1.  The score of a document's result is the sum, over the words of
    the lowercased query, of the count of the word in the document's
    lowercased content ([str.count], which scans left to right and counts
    occurrences that do not overlap).  When the query matches one document
    only, and at least one result is asked for, [search] returns exactly
    one result, with that document's key and that sum. *)
Theorem search_score_is_sum_of_counts (docs : dict Document) (q : str)
  (m : Z) :
  (forall k d r,
      NoDup (keys docs) -> In (k, d) docs ->
      In r (search lower docs q m) -> file_path r = k ->
      relevance_score r
      = sum_counts (lower (doc_content d)) (query_words lower q))
  /\
  (forall before k d after,
      docs = before ++ (k, d) :: after ->
      matches lower q d = true ->
      (forall item, In item (before ++ after) ->
                    matches lower q (snd item) = false) ->
      (1 <= m)%Z ->
      exists r,
        search lower docs q m = [r] /\ file_path r = k /\
        relevance_score r
        = sum_counts (lower (doc_content d)) (query_words lower q)).
Proof.
  split.
  - intros k d r Hnd Hd Hr Hk.
    apply search_In in Hr as [[k' d'] [Hin [-> _]]].
    cbn in Hk. subst k'. cbn [relevance_score result_for snd].
    rewrite (keys_unique docs k d d' Hnd Hd Hin). apply score_in_sum.
  - intros before k d after -> Hd Hothers Hm.
    exists (result_for lower q (k, d)). rewrite search_unfold.
    assert (Hfound : found lower q (before ++ (k, d) :: after) = [(k, d)]).
    { unfold found. rewrite filter_app. cbn [filter snd].
      rewrite score_in_pos, Hd.
      rewrite !filter_none; [reflexivity | |];
        intros item Hi; rewrite score_in_pos; apply Hothers;
        apply in_or_app; [now right | now left]. }
    rewrite Hfound. cbn [map sort_desc fold_right insert_desc].
    rewrite slice_to_all by (simpl; lia).
    repeat split. apply score_in_sum.
Qed.

(** C2.  The results are in descending order of score; for each score, the
    results that have it are, in the order returned, an initial segment of
    the documents that have it, in insertion order; and a non-negative
    [max_results] bounds their number. *)
Theorem search_sorted_stable_bounded (docs : dict Document) (q : str)
  (m : Z) :
  StronglySorted score_ge (search lower docs q m)
  /\
  (forall k, exists n,
      map file_path
          (filter (fun r => (relevance_score r =? k)%Z)
                  (search lower docs q m))
      = firstn n
          (keys (filter (fun item => (score_in lower q (snd item) =? k)%Z)
                        docs)))
  /\
  ((0 <= m)%Z -> (Z.of_nat (length (search lower docs q m)) <= m)%Z).
Proof.
  rewrite search_unfold. split; [|split].
  - destruct (slice_to_firstn
                (sort_desc relevance_score
                   (map (result_for lower q) (found lower q docs))) m)
      as [j ->].
    apply StronglySorted_firstn. apply sort_desc_sorted.
  - intros k.
    destruct (slice_to_firstn
                (sort_desc relevance_score
                   (map (result_for lower q) (found lower q docs))) m)
      as [j ->].
    destruct (filter_firstn (fun r => (relevance_score r =? k)%Z) j
                (sort_desc relevance_score
                   (map (result_for lower q) (found lower q docs))))
      as [n ->].
    rewrite sort_desc_stable.
    destruct (Z.ltb_spec 0 k) as [Hk | Hk].
    + exists n. rewrite <- firstn_map. f_equal. unfold found, keys.
      induction docs as [|[k0 d0] ds IH]; [reflexivity|].
      cbn [filter snd map].
      destruct (0 <? score_in lower q d0)%Z eqn:E0;
        destruct (score_in lower q d0 =? k)%Z eqn:E1;
        cbn [map filter relevance_score result_for snd fst file_path];
        rewrite ?E1; cbn [map fst]; rewrite ?IH; try reflexivity.
      apply Z.eqb_eq in E1. apply Z.ltb_ge in E0. lia.
    + exists 0. rewrite firstn_O.
      rewrite filter_none; [now rewrite firstn_nil|].
      intros r Hr. apply in_map_iff in Hr as [item [<- Hi]].
      apply filter_In in Hi as [_ Hi]. apply Z.ltb_lt in Hi.
      cbn. apply Z.eqb_neq. lia.
  - apply slice_to_length.
Qed.

(** C3.  Every result has a score of at least 1, and a document whose
    score is 0 has no result. *)
Theorem search_scores_positive (docs : dict Document) (q : str) (m : Z) :
  (forall r, In r (search lower docs q m) -> (1 <= relevance_score r)%Z)
  /\
  (forall k d r,
      NoDup (keys docs) -> In (k, d) docs -> score_in lower q d = 0%Z ->
      In r (search lower docs q m) -> file_path r <> k).
Proof.
  split.
  - intros r Hr. apply search_In in Hr as [item [_ [-> Hpos]]]. cbn. lia.
  - intros k d r Hnd Hd Hzero Hr Hk.
    apply search_In in Hr as [[k' d'] [Hin [-> Hpos]]].
    cbn in Hk, Hpos. subst k'.
    rewrite (keys_unique docs k d d' Hnd Hd Hin) in Hzero. lia.
Qed.

(** C4, as amended.  For tokens that [str.lower] leaves unchanged, as the
    ones [search] passes are, the excerpt is made of the paragraphs, cut
    at blank lines, that contain a token as a case-insensitive substring:
    the first three of them at most, in their order, stripped and joined
    by a blank line; it is empty when no paragraph qualifies. *)
Theorem extract_relevant_content_lowercase_tokens (content : str)
  (tokens : list str) :
  (forall t, In t tokens -> lower t = t) ->
  extract_relevant_content lower content tokens
  = spec_extract_relevant_content lower content tokens
  /\
  ((forall p, In p (split content [LF; LF]) ->
              existsb (contains_ignoring_case lower p) tokens = false) ->
   extract_relevant_content lower content tokens = []).
Proof.
  intros Hlow.
  assert (Hq : forall p,
             qualifies lower tokens p
             = existsb (contains_ignoring_case lower p) tokens).
  { intros p. unfold qualifies, contains_ignoring_case.
    induction tokens as [|t ts IH]; [reflexivity|].
    cbn [existsb]. rewrite (Hlow t) by now left.
    rewrite IH; [reflexivity|]. intros t' Ht'. apply Hlow. now right. }
  rewrite extract_relevant_content_eq. unfold spec_extract_relevant_content.
  rewrite (filter_ext _ _ Hq). split; [reflexivity|].
  intros Hnone. now rewrite filter_none.
Qed.

(** C5, as amended.  For a non-empty result list the answer is the best
    title between corner brackets followed by the word for "from", a
    full-width colon and a blank line, then the first 500 characters at
    most of the best content, and, exactly when there are further results,
    a blank line, the sentence announcing other teachings and their titles
    joined by a comma and a space. *)
Theorem generate_answer_shape (query : str) (best : SearchResult)
  (others : list SearchResult) :
  generate_answer query (best :: others)
  = (answer_open ++ title best ++ answer_close)
      ++ firstn 500 (content best)
      ++ match others with
         | [] => []
         | _ :: _ => other_teachings ++ join (lit ", ") (map title others)
         end
  /\ length (firstn 500 (content best)) <= 500
  /\ startswith (generate_answer query (best :: others))
       (answer_open ++ title best ++ answer_close) = true.
Proof.
  assert (E : generate_answer query (best :: others)
              = (answer_open ++ title best ++ answer_close)
                  ++ firstn 500 (content best)
                  ++ match others with
                     | [] => []
                     | _ :: _ => other_teachings
                                   ++ join (lit ", ") (map title others)
                     end).
  { unfold generate_answer. destruct others as [|r rs].
    - cbn [length Nat.ltb Nat.leb]. now rewrite app_nil_r.
    - cbn [length Nat.ltb Nat.leb skipn]. now rewrite <- !app_assoc. }
  split; [exact E | split].
  - rewrite length_firstn. lia.
  - rewrite E. apply startswith_iff. eexists. reflexivity.
Qed.

(** C6.  When no word of the query occurs in any document's lowercased
    content, [search] returns nothing; and on an empty result list
    [generate_answer] returns its fixed message whatever the query. *)
Theorem search_no_match (docs : dict Document) (q : str) (m : Z) :
  (forall item, In item docs -> matches lower q (snd item) = false) ->
  search lower docs q m = []
  /\ (forall q', generate_answer q' [] = not_found_message)
  /\ (forall q', generate_answer q' (search lower docs q m)
                 = not_found_message).
Proof.
  intros Hnone.
  assert (E : search lower docs q m = []).
  { rewrite search_unfold. unfold found. rewrite filter_none.
    - cbn [map sort_desc fold_right]. unfold slice_to.
      destruct (0 <=? m)%Z; now rewrite firstn_nil.
    - intros item Hi. rewrite score_in_pos. now apply Hnone. }
  rewrite E. repeat split.
Qed.

(** C7.  The title is what follows the marker, stripped, on the first line
    that starts with a hash sign and a space; without such a line it is
    the placeholder. *)
Theorem extract_title_first_heading (content : str) :
  (forall before line after,
      split content [LF] = before ++ line :: after ->
      (forall l, In l before -> startswith l (lit "# ") = false) ->
      startswith line (lit "# ") = true ->
      extract_title content = strip (skipn 2 line))
  /\
  ((forall l, In l (split content [LF]) -> startswith l (lit "# ") = false) ->
   extract_title content = unknown_title).
Proof.
  unfold extract_title. split.
  - intros before line after -> Hbefore Hline.
    induction before as [|l before IH]; cbn [app extract_title_loop].
    + now rewrite Hline.
    + rewrite (Hbefore l) by now left. apply IH.
      intros l' Hl'. apply Hbefore. now right.
  - generalize (split content [LF]). intros lines Hnone.
    induction lines as [|l lines IH]; [reflexivity|].
    cbn [extract_title_loop]. rewrite (Hnone l) by now left.
    apply IH. intros l' Hl'. apply Hnone. now right.
Qed.

(** C8.  When the data directory does not exist, loading returns without
    raising and the store stays empty. *)
Theorem load_missing_directory (d : data_dir) :
  dir_exists d = false ->
  fst (init d) = inl tt
  /\ documents (snd (init d)) = []
  /\ length (documents (snd (init d))) = 0.
Proof.
  intros H. unfold init, load_documents. rewrite H. repeat split.
Qed.

(** C9.  On the two documents of the example, [a.md] loaded before [b.md],
    the query [fight] gives both, with score 1 each ([fight] is counted
    inside [fighting]), [a.md] first. *)
Theorem example_fight (m : Z) :
  (forall s, is_ascii s = true -> lower s = lower_ascii s) ->
  (2 <= m)%Z ->
  search lower example_docs (lit "fight") m = [a_result; b_result].
Proof.
  intros Hlow Hm.
  rewrite (search_ext lower lower_ascii).
  - unfold search.
    assert (E : sort_desc relevance_score
                  (fold_left (search_step lower_ascii
                                (lower_ascii (lit "fight")))
                             example_docs [])
                = [a_result; b_result])
      by (vm_compute; reflexivity).
    rewrite E. apply slice_to_all. simpl. lia.
  - apply Hlow. reflexivity.
  - intros item [<- | [<- | []]]; (split; [apply Hlow; reflexivity|]);
      intros p Hp; vm_compute in Hp;
      repeat (destruct Hp as [<- | Hp]; [apply Hlow; reflexivity|]);
      contradiction.
Qed.

(** C10.  Provided lowercasing goes through blank lines and keeps
    whitespace as whitespace, every result has a non-empty excerpt: a word
    of the query holds no whitespace, so where it occurs in the lowercased
    content it lies within one paragraph, which is kept and is not
    blank. *)
Theorem search_excerpt_nonempty (docs : dict Document) (q : str) (m : Z)
  (r : SearchResult) :
  (forall a b,
      lower (a ++ [LF; LF] ++ b) = lower a ++ [LF; LF] ++ lower b) ->
  (forall s, forallb isspace s = true -> forallb isspace (lower s) = true) ->
  In r (search lower docs q m) ->
  content r <> [].
Proof.
  intros Hpar Hws Hr.
  apply search_In in Hr as [[k d] [_ [-> Hpos]]].
  cbn [content result_for snd] in *.
  apply Z.ltb_lt in Hpos. rewrite score_in_pos in Hpos.
  now apply excerpt_nonempty.
Qed.

End Claims.

(* ================================================================= *)
(** ** The properties at concrete inputs *)

Lemma example_docs_keys : NoDup (keys example_docs).
Proof.
  exact (load_documents_keys example_dir init_state (NoDup_nil _)).
Qed.

(** [str.count] does not count overlapping occurrences. *)
Example count_skips_overlap : count (lit "aaa") (lit "aa") = 1%Z.
Proof. reflexivity. Qed.

(** A negative [max_results] drops results from the end. *)
Example search_negative_max_results :
  map file_path (search lower_ascii example_docs (lit "fight") (-1))
  = [lit "a.md"].
Proof. reflexivity. Qed.

(** C1 at the example: the score of [a.md] for [fight], and the query
    [smart], which matches [b.md] only. *)
Lemma search_score_is_sum_of_counts_witness :
  (In (lit "a.md", a_doc) example_docs
   /\ In a_result (search lower_ascii example_docs (lit "fight") 3)
   /\ relevance_score a_result
      = sum_counts (lower_ascii a_md) (query_words lower_ascii (lit "fight")))
  /\
  (matches lower_ascii (lit "smart") b_doc = true
   /\ matches lower_ascii (lit "smart") a_doc = false
   /\ exists r,
        search lower_ascii example_docs (lit "smart") 3 = [r] /\
        file_path r = lit "b.md" /\
        relevance_score r
        = sum_counts (lower_ascii b_md)
            (query_words lower_ascii (lit "smart"))).
Proof.
  split.
  - assert (Hd : In (lit "a.md", a_doc) example_docs)
      by (left; reflexivity).
    assert (Hr : In a_result
                    (search lower_ascii example_docs (lit "fight") 3))
      by (left; reflexivity).
    split; [exact Hd | split; [exact Hr|]].
    exact (proj1 (search_score_is_sum_of_counts lower_ascii example_docs
                    (lit "fight") 3) (lit "a.md") a_doc a_result
             example_docs_keys Hd Hr eq_refl).
  - split; [reflexivity | split; [reflexivity|]].
    apply (proj2 (search_score_is_sum_of_counts lower_ascii example_docs
                    (lit "smart") 3)
             [(lit "a.md", a_doc)] (lit "b.md") b_doc []).
    + reflexivity.
    + reflexivity.
    + intros item [<- | []]. reflexivity.
    + lia.
Defined.

(** C2 at the example, one result asked for. *)
Lemma search_sorted_stable_bounded_witness :
  (0 <= 1)%Z /\
  (Z.of_nat (length (search lower_ascii example_docs (lit "fight") 1)) <= 1)%Z.
Proof.
  split; [lia|].
  apply (proj2 (proj2 (search_sorted_stable_bounded lower_ascii example_docs
                         (lit "fight") 1))).
  lia.
Defined.

(** C3 at the example: [a.md] scores 0 for [smart] and the result is not
    its own. *)
Lemma search_scores_positive_witness :
  In (lit "a.md", a_doc) example_docs
  /\ score_in lower_ascii (lit "smart") a_doc = 0%Z
  /\ In b_result (search lower_ascii example_docs (lit "smart") 3)
  /\ file_path b_result <> lit "a.md".
Proof.
  assert (Hd : In (lit "a.md", a_doc) example_docs) by (left; reflexivity).
  assert (Hr : In b_result (search lower_ascii example_docs (lit "smart") 3))
    by (left; reflexivity).
  split; [exact Hd | split; [reflexivity | split; [exact Hr|]]].
  exact (proj2 (search_scores_positive lower_ascii example_docs
                  (lit "smart") 3) (lit "a.md") a_doc b_result
           example_docs_keys Hd eq_refl Hr).
Defined.

(** C4 as stated fails for a token with a capital letter: the paragraph
    contains it, also when case is ignored, and is not kept. *)
Lemma extract_relevant_content_capital_token :
  contains (lit "Fight smart.") (lit "Fight") = true
  /\ contains_ignoring_case lower_ascii (lit "Fight smart.") (lit "Fight")
     = true
  /\ spec_extract_relevant_content lower_ascii (lit "Fight smart.")
       [lit "Fight"] = lit "Fight smart."
  /\ extract_relevant_content lower_ascii (lit "Fight smart.") [lit "Fight"]
     = []
  /\ extract_relevant_content lower_ascii (lit "Fight smart.") [lit "Fight"]
     <> spec_extract_relevant_content lower_ascii (lit "Fight smart.")
          [lit "Fight"].
Proof.
  repeat split; try reflexivity. vm_compute. discriminate.
Qed.

(** C4 as amended, at the second document of the example. *)
Lemma extract_relevant_content_lowercase_tokens_witness :
  lower_ascii (lit "fight") = lit "fight" /\
  extract_relevant_content lower_ascii b_md [lit "fight"]
  = spec_extract_relevant_content lower_ascii b_md [lit "fight"].
Proof.
  split; [reflexivity|].
  apply (extract_relevant_content_lowercase_tokens lower_ascii b_md
           [lit "fight"]).
  intros t [<- | []]. reflexivity.
Defined.

(** C5 as stated fails: the answer does not open with [From 'T':]. *)
Lemma generate_answer_opening_differs :
  startswith (generate_answer (lit "q") [sample_result])
             (spec_answer_opening (title sample_result)) = false
  /\ generate_answer (lit "q") [sample_result]
     = [12300; 84; 12301; 12424; 12426; 65306; 10; 10; 99]%N.
Proof. split; reflexivity. Qed.

(** C6 at the example, for a word that occurs nowhere. *)
Lemma search_no_match_witness :
  matches lower_ascii (lit "zebra") a_doc = false
  /\ matches lower_ascii (lit "zebra") b_doc = false
  /\ search lower_ascii example_docs (lit "zebra") 3 = [].
Proof.
  split; [reflexivity | split; [reflexivity|]].
  apply (search_no_match lower_ascii example_docs (lit "zebra") 3).
  intros item [<- | [<- | []]]; reflexivity.
Defined.

(** C7 at the first document of the example and at a text without
    heading of the first level. *)
Lemma extract_title_first_heading_witness :
  (startswith (lit "# Strategy") (lit "# ") = true
   /\ extract_title a_md = strip (skipn 2 (lit "# Strategy")))
  /\ (startswith (lit "## Notes") (lit "# ") = false
      /\ extract_title (lit "## Notes") = unknown_title).
Proof.
  split; (split; [reflexivity|]).
  - apply (proj1 (extract_title_first_heading a_md)
             [] (lit "# Strategy") (tl (split a_md [LF]))).
    + reflexivity.
    + intros l [].
    + reflexivity.
  - apply (proj2 (extract_title_first_heading (lit "## Notes"))).
    intros l [<- | []]. reflexivity.
Defined.

(** C8 at a directory that is not there. *)
Lemma load_missing_directory_witness :
  dir_exists missing_dir = false
  /\ fst (init missing_dir) = inl tt
  /\ documents (snd (init missing_dir)) = [].
Proof.
  split; [reflexivity|].
  split; apply (load_missing_directory missing_dir); reflexivity.
Defined.

(** C9 with the ASCII lowercasing and the default [max_results]. *)
Lemma example_fight_witness :
  (2 <= 3)%Z /\
  search lower_ascii example_docs (lit "fight") 3 = [a_result; b_result].
Proof.
  split; [lia|].
  apply (example_fight lower_ascii 3); [|lia].
  intros s _. reflexivity.
Defined.

(** C10 at the example. *)
Lemma search_excerpt_nonempty_witness :
  In a_result (search lower_ascii example_docs (lit "fight") 3)
  /\ content a_result <> [].
Proof.
  assert (Hr : In a_result (search lower_ascii example_docs (lit "fight") 3))
    by (left; reflexivity).
  split; [exact Hr|].
  exact (search_excerpt_nonempty lower_ascii example_docs (lit "fight") 3
           a_result lower_ascii_paragraphs lower_ascii_space Hr).
Defined.

(* ================================================================= *)
(** ** Further facts *)

(** *** Dictionaries *)

Lemma In_keys_dict_set {V : Type} (d : dict V) (k k' : str) (v : V) :
  In k (keys (dict_set d k' v)) <-> In k (keys d) \/ k = k'.
Proof.
  rewrite keys_dict_set.
  destruct (in_dec str_eq_dec k' (keys d)) as [Hi | Hi].
  - split; [now left | intros [H | ->]; assumption].
  - rewrite in_app_iff. simpl. split.
    + intros [H | [H | []]]; [now left | now right].
    + intros [H | ->]; [now left | right; now left].
Qed.

Lemma In_dict_set {V : Type} (d : dict V) (k k' : str) (v v' : V) :
  In (k, v) (dict_set d k' v') -> (k = k' /\ v = v') \/ In (k, v) d.
Proof.
  induction d as [|[k0 v0] d IH]; cbn [dict_set].
  - intros [H | []]. injection H as <- <-. now left.
  - destruct (str_eq_dec k' k0) as [-> | Hne].
    + intros [H | H]; [injection H as <- <-; now left | right; now right].
    + intros [H | H]; [right; now left|].
      destruct (IH H) as [H' | H']; [now left | right; now right].
Qed.

Lemma length_dict_set {V : Type} (d : dict V) (k : str) (v : V) :
  length (dict_set d k v)
  = if in_dec str_eq_dec k (keys d) then length d else S (length d).
Proof.
  rewrite <- (length_map fst (dict_set d k v)). fold (keys (dict_set d k v)).
  rewrite keys_dict_set.
  destruct (in_dec str_eq_dec k (keys d)); unfold keys;
    rewrite ?length_app, length_map; simpl; lia.
Qed.

(** *** The loader as a fold *)

Lemma for_each_load (files : list md_file) (st : kb_state) :
  for_each files (fun f =>
      try_except
        (text <- read_text f ;;
         set_document (md_name f)
           {| doc_title := extract_title text;
              doc_content := text;
              doc_file_path := md_path f |} ;;;
         print (lit "Loaded: " ++ md_name f))
        (fun e =>
           print (lit "Error loading " ++ md_path f ++ lit ": " ++ exn_msg e)))
    st
  = (inl tt, {| documents := fold_left store_file files (documents st);
                stdout := stdout st ++ map report_file files |}).
Proof.
  revert st; induction files as [|f files IH]; intros st.
  - destruct st as [docs out]. cbn [for_each ret fold_left map documents stdout].
    now rewrite app_nil_r.
  - cbn [for_each fold_left map]. unfold bind at 1.
    unfold try_except at 1, bind at 1, read_text, store_file, report_file.
    destruct (md_read f) as [text | e].
    + unfold ret, bind, set_document, print. rewrite IH.
      cbn [documents stdout]. now rewrite <- app_assoc.
    + unfold raise, print. rewrite IH.
      cbn [documents stdout]. now rewrite <- app_assoc.
Qed.

Lemma load_documents_existing (d : data_dir) (st : kb_state) :
  dir_exists d = true ->
  load_documents d st
  = (inl tt, {| documents := fold_left store_file (dir_glob_md d) (documents st);
                stdout := stdout st ++ map report_file (dir_glob_md d) |}).
Proof.
  intros H. unfold load_documents. rewrite H. cbn [negb].
  apply for_each_load.
Qed.

Lemma kb_documents_existing (d : data_dir) :
  dir_exists d = true ->
  kb_documents d = fold_left store_file (dir_glob_md d) [].
Proof.
  intros H. unfold kb_documents, init.
  now rewrite load_documents_existing.
Qed.

Lemma kb_documents_missing (d : data_dir) :
  dir_exists d = false -> kb_documents d = [].
Proof.
  intros H. unfold kb_documents, init, load_documents. now rewrite H.
Qed.

Lemma store_files_keys (files : list md_file) (docs : dict Document)
  (k : str) :
  In k (keys (fold_left store_file files docs))
  <-> In k (keys docs)
      \/ exists f, In f files /\ md_name f = k /\ readable f = true.
Proof.
  revert docs; induction files as [|f files IH]; intros docs;
    cbn [fold_left].
  - split; [now left | intros [H | [f [[] _]]]; exact H].
  - rewrite IH. unfold store_file at 1, readable.
    destruct (md_read f) as [text | e] eqn:E.
    + rewrite In_keys_dict_set. split.
      * intros [[H | ->] | [g [Hg Hk]]].
        -- now left.
        -- right. exists f. rewrite E. repeat split. now left.
        -- right. exists g. split; [now right | exact Hk].
      * intros [H | [g [[<- | Hg] [Hk Hr]]]].
        -- left. now left.
        -- left. right. now symmetry.
        -- right. now exists g.
    + split.
      * intros [H | [g [Hg Hk]]]; [now left|].
        right. exists g. split; [now right | exact Hk].
      * intros [H | [g [[<- | Hg] [Hk Hr]]]].
        -- now left.
        -- rewrite E in Hr. discriminate.
        -- right. now exists g.
Qed.

Lemma store_files_values (files : list md_file) (docs : dict Document)
  (k : str) (doc : Document) :
  In (k, doc) (fold_left store_file files docs) ->
  In (k, doc) docs
  \/ exists f, In f files /\ md_name f = k
               /\ md_read f = inl (doc_content doc)
               /\ doc_title doc = extract_title (doc_content doc)
               /\ doc_file_path doc = md_path f.
Proof.
  revert docs; induction files as [|f files IH]; intros docs;
    cbn [fold_left]; [now left|].
  intros H. apply IH in H as [H | [g [Hg Hrest]]].
  - unfold store_file in H. destruct (md_read f) as [text | e] eqn:E.
    + apply In_dict_set in H as [[-> ->] | H]; [|now left].
      right. exists f. cbn. rewrite E. repeat split. now left.
    + now left.
  - right. exists g. split; [now right | exact Hrest].
Qed.

Lemma store_files_length (files : list md_file) (docs : dict Document) :
  length (fold_left store_file files docs) <= length docs + length files.
Proof.
  revert docs; induction files as [|f files IH]; intros docs;
    cbn [fold_left length]; [lia|].
  specialize (IH (store_file docs f)).
  assert (length (store_file docs f) <= S (length docs)); [|lia].
  unfold store_file. destruct (md_read f); [|lia].
  rewrite length_dict_set. destruct (in_dec _ _ _); lia.
Qed.

Lemma store_files_all (files : list md_file) (docs : dict Document) :
  forallb readable files = true ->
  NoDup (keys docs ++ map md_name files) ->
  length (fold_left store_file files docs) = length docs + length files.
Proof.
  revert docs; induction files as [|f files IH]; intros docs Hr Hnd;
    cbn [fold_left length]; [lia|].
  cbn [forallb] in Hr. apply andb_true_iff in Hr as [Hf Hr].
  cbn [map] in Hnd.
  assert (Hk : ~ In (md_name f) (keys docs)).
  { intros Hin. apply NoDup_remove_2 in Hnd. apply Hnd.
    apply in_or_app. now left. }
  assert (Hs : keys (store_file docs f) = keys docs ++ [md_name f]
               /\ length (store_file docs f) = S (length docs)).
  { unfold store_file, readable in *. destruct (md_read f); [|discriminate].
    rewrite keys_dict_set, length_dict_set.
    destruct (in_dec _ _ _); [contradiction | now split]. }
  destruct Hs as [Hkeys Hlen]. rewrite IH; [lia | exact Hr|].
  rewrite Hkeys, <- app_assoc. exact Hnd.
Qed.

(** *** Lists *)

Lemma sort_desc_length {A : Type} (key : A -> Z) (l : list A) :
  length (sort_desc key l) = length l.
Proof. symmetry. apply Permutation_length, sort_desc_perm. Qed.

Lemma slice_to_nonneg {A : Type} (l : list A) (n : Z) :
  (0 <= n)%Z -> slice_to l n = firstn (Z.to_nat n) l.
Proof.
  intros H. unfold slice_to. apply Z.leb_le in H. now rewrite H.
Qed.

Lemma firstn_cons_inv {A : Type} (j : nat) (l : list A) (x : A)
  (rest : list A) :
  firstn j l = x :: rest -> exists l', l = x :: l'.
Proof.
  destruct j as [|j]; [discriminate|].
  destruct l as [|y l]; [discriminate|].
  cbn [firstn]. intros H. injection H as -> _. now exists l.
Qed.

Lemma NoDup_firstn {A : Type} (j : nat) (l : list A) :
  NoDup l -> NoDup (firstn j l).
Proof.
  intros H. rewrite <- (firstn_skipn j l) in H.
  now apply NoDup_app_remove_r in H.
Qed.

Lemma NoDup_keys_filter {V : Type} (f : str * V -> bool) (d : dict V) :
  NoDup (keys d) -> NoDup (keys (filter f d)).
Proof.
  unfold keys. induction d as [|[k v] d IH]; cbn [filter map fst];
    [trivial|].
  intros H. apply NoDup_cons_iff in H as [Hk Hd].
  destruct (f (k, v)); [|now apply IH].
  cbn [map fst]. constructor; [|now apply IH].
  intros Hin. apply Hk. apply in_map_iff in Hin as [[k' v'] [<- Hin]].
  apply filter_In in Hin as [Hin _].
  change (fst (k', v')) with (fst (k', v')). now apply in_map.
Qed.

Lemma filter_nil_none {A : Type} (f : A -> bool) (l : list A) :
  filter f l = [] -> forall x, In x l -> f x = false.
Proof.
  intros H x Hx. destruct (f x) eqn:E; [|reflexivity].
  assert (In x (filter f l)) by (apply filter_In; now split).
  rewrite H in *. contradiction.
Qed.

(** *** Words and counts *)

Lemma split_ws_blank (s : str) :
  forallb isspace s = true -> split_ws s = [].
Proof.
  unfold split_ws. induction s as [|c s IH]; [reflexivity|].
  cbn [forallb split_ws_from]. intros H.
  apply andb_true_iff in H as [Hc Hs]. rewrite Hc. now apply IH.
Qed.

Lemma count_from_le (sub : str) (k : nat) (s : str) :
  (count_from sub k s <= Z.of_nat (length s))%Z.
Proof.
  revert k; induction s as [|c s IH]; intros k; cbn [count_from length];
    [lia|].
  destruct k as [|k].
  - destruct (startswith (c :: s) sub).
    + specialize (IH (length sub - 1)). lia.
    + specialize (IH 0). lia.
  - specialize (IH k). lia.
Qed.

Lemma count_le (s sub : str) :
  sub <> [] -> (count s sub <= Z.of_nat (length s))%Z.
Proof.
  destruct sub as [|a sub]; [contradiction|]. intros _.
  apply count_from_le.
Qed.

Lemma sum_counts_app (cl : str) (ws1 ws2 : list str) :
  sum_counts cl (ws1 ++ ws2)
  = (sum_counts cl ws1 + sum_counts cl ws2)%Z.
Proof.
  unfold sum_counts. induction ws1 as [|w ws1 IH];
    cbn [app map fold_right]; lia.
Qed.

Lemma sum_counts_perm (cl : str) (ws ws' : list str) :
  Permutation ws ws' -> sum_counts cl ws = sum_counts cl ws'.
Proof.
  unfold sum_counts.
  induction 1; cbn [map fold_right]; lia.
Qed.

Lemma sum_counts_le (cl : str) (ws : list str) :
  (forall w, In w ws -> w <> []) ->
  (sum_counts cl ws <= Z.of_nat (length ws * length cl))%Z.
Proof.
  unfold sum_counts. induction ws as [|w ws IH]; intros H;
    cbn [map fold_right length]; [lia|].
  assert (Hw : w <> []) by (apply H; now left).
  pose proof (count_le cl w Hw).
  assert (IH' : (fold_right Z.add 0 (map (count cl) ws)
                 <= Z.of_nat (length ws * length cl))%Z)
    by (apply IH; intros w' Hw'; apply H; now right).
  lia.
Qed.

(** *** Answers *)

Lemma generate_answer_opening (q : str) (r : SearchResult)
  (rest : list SearchResult) :
  exists t,
    generate_answer q (r :: rest)
    = (answer_open ++ title r ++ answer_close) ++ t.
Proof.
  unfold generate_answer. destruct (1 <? length (r :: rest))%nat.
  - eexists. rewrite <- (app_assoc (answer_open ++ title r ++ answer_close)).
    reflexivity.
  - eexists. reflexivity.
Qed.

Lemma generate_answer_found (q : str) (r : SearchResult)
  (rest : list SearchResult) :
  generate_answer q (r :: rest) <> not_found_message.
Proof.
  destruct (generate_answer_opening q r rest) as [t ->]. discriminate.
Qed.

(** *** Searching *)

Section SearchFacts.

Variable lower : str -> str.

Lemma found_matches (q : str) (docs : dict Document) :
  found lower q docs = filter (fun item => matches lower q (snd item)) docs.
Proof.
  unfold found. apply filter_ext. intros item. apply score_in_pos.
Qed.

Lemma search_sorted_prefix (docs : dict Document) (q : str) (m : Z) :
  exists j,
    search lower docs q m
    = firstn j (sort_desc relevance_score
                  (map (result_for lower q) (found lower q docs))).
Proof. rewrite search_unfold. apply slice_to_firstn. Qed.

Lemma search_length_nonneg (docs : dict Document) (q : str) (m : Z) :
  (0 <= m)%Z ->
  length (search lower docs q m)
  = Nat.min (Z.to_nat m) (length (found lower q docs)).
Proof.
  intros H. rewrite search_unfold, slice_to_nonneg by exact H.
  now rewrite length_firstn, sort_desc_length, length_map.
Qed.

Lemma search_length_le (docs : dict Document) (q : str) (m : Z) :
  length (search lower docs q m) <= length (found lower q docs).
Proof.
  destruct (search_sorted_prefix docs q m) as [j ->].
  rewrite length_firstn, sort_desc_length, length_map. lia.
Qed.

Lemma search_nil_iff (docs : dict Document) (q : str) (m : Z) :
  (1 <= m)%Z ->
  search lower docs q m = []
  <-> forall item, In item docs -> matches lower q (snd item) = false.
Proof.
  intros Hm. rewrite <- length_zero_iff_nil.
  rewrite search_length_nonneg by lia. rewrite found_matches.
  split.
  - intros H. apply filter_nil_none. apply length_zero_iff_nil. lia.
  - intros H. rewrite filter_none by exact H. simpl. lia.
Qed.

Lemma search_none (docs : dict Document) (q : str) (m : Z) :
  (forall item, In item docs -> matches lower q (snd item) = false) ->
  search lower docs q m = [].
Proof.
  intros H. apply length_zero_iff_nil.
  pose proof (search_length_le docs q m) as Hle.
  rewrite found_matches, filter_none in Hle by exact H. simpl in Hle. lia.
Qed.

(** The first result has the greatest score of the store. *)
Lemma search_head_max (docs : dict Document) (q : str) (m : Z)
  (r : SearchResult) (rest : list SearchResult) (k : str) (d : Document) :
  search lower docs q m = r :: rest -> In (k, d) docs ->
  (score_in lower q d <= relevance_score r)%Z.
Proof.
  intros Hs Hd.
  assert (Hr : In r (search lower docs q m)) by (rewrite Hs; now left).
  apply search_In in Hr as [item [_ [Hr Hpos]]].
  assert (Hrpos : (0 < relevance_score r)%Z) by (rewrite Hr; exact Hpos).
  destruct (search_sorted_prefix docs q m) as [j Hj]. rewrite Hs in Hj.
  symmetry in Hj. apply firstn_cons_inv in Hj as [l' Hl'].
  pose proof (sort_desc_sorted relevance_score
                (map (result_for lower q) (found lower q docs))) as Hsorted.
  rewrite Hl' in Hsorted. apply StronglySorted_inv in Hsorted as [_ Hall].
  destruct (Z.ltb_spec 0 (score_in lower q d)) as [Hp | Hp]; [|lia].
  assert (Hin : In (result_for lower q (k, d)) (r :: l')).
  { rewrite <- Hl'.
    apply (Permutation_in _ (sort_desc_perm _ _)).
    apply in_map. apply filter_In. split; [exact Hd|].
    now apply Z.ltb_lt. }
  destruct Hin as [Hin | Hin]; [rewrite Hin; cbn; lia|].
  rewrite Forall_forall in Hall. apply Hall in Hin.
  unfold key_ge in Hin. exact Hin.
Qed.

Lemma search_paths_distinct (docs : dict Document) (q : str) (m : Z) :
  NoDup (keys docs) -> NoDup (map file_path (search lower docs q m)).
Proof.
  intros H. destruct (search_sorted_prefix docs q m) as [j ->].
  rewrite <- firstn_map. apply NoDup_firstn.
  apply (Permutation_NoDup
           (Permutation_map file_path (sort_desc_perm relevance_score _))).
  rewrite map_map. cbn [file_path result_for].
  now apply NoDup_keys_filter.
Qed.

End SearchFacts.

(** *** Stripping, once more *)

Lemma lstrip_suffix (s : str) : exists a, s = a ++ lstrip s.
Proof.
  induction s as [|c s [a IH]]; [now exists []|].
  cbn [lstrip]. destruct (isspace c).
  - exists (c :: a). cbn [app]. now rewrite <- IH.
  - now exists [].
Qed.

Lemma rstrip_prefix (s : str) : exists b, s = rstrip s ++ b.
Proof.
  unfold rstrip. destruct (lstrip_suffix (rev s)) as [a Ha].
  exists (rev a). rewrite <- rev_app_distr, <- Ha. now rewrite rev_involutive.
Qed.

Lemma strip_infix (s : str) : exists a b, s = a ++ strip s ++ b.
Proof.
  unfold strip. destruct (lstrip_suffix s) as [a Ha].
  destruct (rstrip_prefix (lstrip s)) as [b Hb].
  exists a, b. now rewrite <- Hb.
Qed.

Lemma strip_length (s : str) : length (strip s) <= length s.
Proof.
  destruct (strip_infix s) as [a [b H]]. rewrite H at 2.
  rewrite !length_app. lia.
Qed.

Lemma contains_strip (s : str) : contains s (strip s) = true.
Proof. apply contains_iff, strip_infix. Qed.

Lemma contains_trans (s t u : str) :
  contains s t = true -> contains t u = true -> contains s u = true.
Proof.
  rewrite !contains_iff. intros [a [b ->]] [a' [b' ->]].
  exists (a ++ a'), (b' ++ b). now rewrite <- !app_assoc.
Qed.

Lemma lstrip_head (s t : str) (c : char) :
  lstrip s = c :: t -> isspace c = false.
Proof.
  induction s as [|x s IH]; [discriminate|]. cbn [lstrip].
  destruct (isspace x) eqn:E; [exact IH|].
  intros H. injection H as <- _. exact E.
Qed.

Lemma strip_trimmed (s : str) : trimmed (strip s).
Proof.
  unfold strip, rstrip.
  destruct (rstrip_prefix (lstrip s)) as [b Hb]. unfold rstrip in Hb.
  destruct (lstrip (rev (lstrip s))) as [|x u] eqn:Eu; [exact I|].
  pose proof (lstrip_head _ _ _ Eu) as Hx.
  cbn [rev] in *. unfold trimmed.
  destruct (rev u ++ [x]) as [|c w] eqn:Ew.
  - destruct (rev u); discriminate.
  - split.
    + apply (lstrip_head s (w ++ b)). exact Hb.
    + rewrite <- Ew. now rewrite last_last.
Qed.

(** *** Paragraphs, once more *)

Lemma weight_cons (n : nat) (p : str) (ps : list str) :
  weight n (p :: ps) = length p + n + weight n ps.
Proof. reflexivity. Qed.

Lemma join_length (sep : str) (ps : list str) :
  ps <> [] ->
  length (join sep ps) + length sep = weight (length sep) ps.
Proof.
  induction ps as [|p ps IH]; [contradiction|]. intros _.
  destruct ps as [|p' ps]; [unfold weight; simpl; lia|].
  rewrite join_cons by discriminate. rewrite weight_cons.
  rewrite !length_app. rewrite <- IH by discriminate. lia.
Qed.

Lemma weight_filter (n : nat) (f : str -> bool) (ps : list str) :
  weight n (filter f ps) <= weight n ps.
Proof.
  induction ps as [|p ps IH]; [apply Nat.le_refl|].
  cbn [filter]. destruct (f p); rewrite !weight_cons; lia.
Qed.

Lemma weight_firstn (n j : nat) (ps : list str) :
  weight n (firstn j ps) <= weight n ps.
Proof.
  revert j; induction ps as [|p ps IH]; intros j.
  - rewrite firstn_nil. apply Nat.le_refl.
  - destruct j; cbn [firstn]; rewrite ?weight_cons;
      [unfold weight; simpl; lia|].
    specialize (IH j). lia.
Qed.

Lemma weight_strip (n : nat) (ps : list str) :
  weight n (map strip ps) <= weight n ps.
Proof.
  induction ps as [|p ps IH]; [apply Nat.le_refl|].
  cbn [map]. rewrite !weight_cons. pose proof (strip_length p). lia.
Qed.

Lemma join_In (sep p : str) (ps : list str) :
  In p ps -> contains (join sep ps) p = true.
Proof.
  induction ps as [|x ps IH]; [contradiction|].
  destruct ps as [|y ps].
  - intros [<- | []]. cbn [join]. apply contains_iff.
    exists [], []. now rewrite app_nil_r.
  - rewrite join_cons by discriminate. intros [<- | H].
    + apply contains_app_l. apply contains_iff.
      exists [], []. now rewrite app_nil_r.
    + apply contains_app_r, contains_app_r. now apply IH.
Qed.

Lemma split_In_contains (content sep p : str) :
  sep <> [] -> In p (split content sep) -> contains content p = true.
Proof.
  intros Hsep Hp. rewrite <- (join_split content sep Hsep) at 1.
  now apply join_In.
Qed.

(** *** Blank lines *)

Lemma no_blank_line_app_l (x y : str) :
  no_blank_line (x ++ y) = true -> no_blank_line x = true.
Proof.
  induction x as [|c x IH]; [reflexivity|].
  cbn [app no_blank_line]. rewrite !andb_true_iff. intros [H1 H2].
  split; [|now apply IH].
  destruct x as [|c' x]; [now rewrite andb_false_r | exact H1].
Qed.

Lemma no_blank_line_app_r (x y : str) :
  no_blank_line (x ++ y) = true -> no_blank_line y = true.
Proof.
  induction x as [|c x IH]; [trivial|].
  cbn [app no_blank_line]. rewrite andb_true_iff. intros [_ H].
  now apply IH.
Qed.

Lemma no_blank_line_snoc (x : str) (c c' : char) :
  no_blank_line (x ++ [c]) = true ->
  ((c =? LF) && (c' =? LF))%N = false ->
  no_blank_line ((x ++ [c]) ++ [c']) = true.
Proof.
  intros Hx Hc. induction x as [|a x IH].
  - cbn [app no_blank_line]. rewrite Hc. now rewrite andb_false_r.
  - cbn [app no_blank_line] in *. apply andb_true_iff in Hx as [H1 H2].
    rewrite (IH H2), andb_true_r.
    destruct x as [|a' x]; exact H1.
Qed.

Lemma startswith_blank_line (c : char) (s : str) :
  startswith (c :: s) [LF; LF]
  = ((c =? LF) && match s with
                  | [] => false
                  | c' :: _ => (c' =? LF)
                  end)%N.
Proof.
  cbn [startswith]. rewrite (N.eqb_sym LF c). destruct s as [|c' s].
  - reflexivity.
  - rewrite (N.eqb_sym LF c'). now rewrite andb_true_r.
Qed.

(** The pieces [split] cuts at blank lines hold no blank line. *)
Lemma split_from_no_blank_line (s : str) (k : nat) (cur p : str) :
  match k with
  | O => no_blank_line (cur ++ firstn 1 s) = true
  | S _ => cur = []
  end ->
  In p (split_from [LF; LF] k cur s) -> no_blank_line p = true.
Proof.
  revert k cur; induction s as [|c s IH]; intros k cur Hinv.
  - cbn [split_from]. intros [<- | []]. destruct k as [|k].
    + cbn [firstn] in Hinv. now rewrite app_nil_r in Hinv.
    + now rewrite Hinv.
  - cbn [split_from]. destruct k as [|k].
    + rewrite startswith_blank_line. cbn [firstn] in Hinv.
      destruct ((c =? LF) && match s with
                             | [] => false
                             | c' :: _ => (c' =? LF)
                             end)%N eqn:E.
      * intros [<- | H].
        -- now apply no_blank_line_app_l in Hinv.
        -- now apply (IH (length [LF; LF] - 1) []).
      * apply IH. destruct s as [|c' s]; cbn [firstn].
        -- now rewrite app_nil_r.
        -- now apply no_blank_line_snoc.
    + subst cur. apply IH. destruct k as [|k]; [|reflexivity].
      cbn [app]. destruct s as [|c' s]; cbn; [reflexivity|].
      now rewrite andb_false_r.
Qed.

Lemma split_no_blank_line (s p : str) :
  In p (split s [LF; LF]) -> no_blank_line p = true.
Proof.
  apply split_from_no_blank_line. cbn [app].
  destruct s as [|c s]; cbn; [reflexivity|]. now rewrite andb_false_r.
Qed.

Lemma last_cons_cons {A : Type} (a b : A) (l : list A) (d : A) :
  last (a :: b :: l) d = last (b :: l) d.
Proof. reflexivity. Qed.

(** Scanning a paragraph without blank line that does not end in a line
    feed finds no separator in it. *)
Lemma split_from_paragraph (p cur : str) :
  no_blank_line p = true -> last p 0%N <> LF ->
  split_from [LF; LF] 0 cur p = [cur ++ p]
  /\ forall t,
       split_from [LF; LF] 0 cur (p ++ LF :: LF :: t)
       = (cur ++ p) :: split_from [LF; LF] 0 [] t.
Proof.
  revert cur; induction p as [|c p IH]; intros cur Hnb Hlast.
  - rewrite app_nil_r. split; [reflexivity|].
    intros t. cbn [app split_from startswith length Nat.sub].
    now rewrite !N.eqb_refl.
  - assert (Hstep : forall t,
              startswith (c :: p ++ t) [LF; LF] = false).
    { intros t. rewrite startswith_blank_line.
      cbn [no_blank_line] in Hnb. apply andb_true_iff in Hnb as [H1 _].
      destruct p as [|c' p].
      - cbn [last] in Hlast. apply N.eqb_neq in Hlast.
        now rewrite Hlast.
      - cbn [app]. now apply negb_true_iff in H1. }
    assert (Hnb' : no_blank_line p = true).
    { cbn [no_blank_line] in Hnb. now apply andb_true_iff in Hnb as [_ H]. }
    assert (Hlast' : last p 0%N <> LF).
    { destruct p as [|c' p]; [discriminate|].
      now rewrite last_cons_cons in Hlast. }
    destruct (IH (cur ++ [c]) Hnb' Hlast') as [IH1 IH2].
    split.
    + cbn [split_from]. specialize (Hstep []). rewrite app_nil_r in Hstep.
      rewrite Hstep, IH1. now rewrite <- app_assoc.
    + intros t. cbn [app split_from]. rewrite Hstep, IH2.
      now rewrite <- app_assoc.
Qed.

(** Joining such paragraphs by blank lines and splitting again gives them
    back. *)
Lemma split_join (ps : list str) :
  ps <> [] ->
  (forall p, In p ps -> no_blank_line p = true /\ last p 0%N <> LF) ->
  split (join [LF; LF] ps) [LF; LF] = ps.
Proof.
  unfold split. induction ps as [|p ps IH]; [contradiction|].
  intros _ H. destruct (H p (or_introl eq_refl)) as [Hnb Hlast].
  destruct (split_from_paragraph p [] Hnb Hlast) as [H1 H2].
  destruct ps as [|p' ps]; [exact H1|].
  rewrite join_cons by discriminate. cbn [app] in *.
  rewrite H2, IH; [reflexivity | discriminate|].
  intros q Hq. apply H. now right.
Qed.

Lemma last_default {A : Type} (l : list A) (d d' : A) :
  l <> [] -> last l d = last l d'.
Proof.
  induction l as [|a l IH]; [contradiction|]. intros _.
  destruct l as [|b l]; [reflexivity|].
  rewrite !last_cons_cons. now apply IH.
Qed.

Lemma trimmed_last (p : str) : trimmed p -> last p 0%N <> LF.
Proof.
  destruct p as [|c p]; [discriminate|]. intros [_ H].
  rewrite (last_default (c :: p) 0%N c) by discriminate.
  intros E. rewrite E in H. discriminate.
Qed.

Lemma strip_paragraph (content p : str) :
  In p (split content [LF; LF]) ->
  no_blank_line (strip p) = true /\ last (strip p) 0%N <> LF.
Proof.
  intros Hp. split.
  - apply split_no_blank_line in Hp.
    destruct (strip_infix p) as [a [b E]]. rewrite E in Hp.
    apply no_blank_line_app_r in Hp. now apply no_blank_line_app_l in Hp.
  - apply trimmed_last, strip_trimmed.
Qed.

(* ================================================================= *)
(** ** Further properties of the code *)

Section LoadingAndAnswers.


(** X2.  When the directory exists, the keys of the store are the names of
    the files that could be read. *)
Theorem kb_documents_keys (d : data_dir) (k : str) :
  dir_exists d = true ->
  In k (keys (kb_documents d))
  <-> exists f, In f (dir_glob_md d) /\ md_name f = k /\ readable f = true.
Proof.
  intros H. rewrite kb_documents_existing by exact H.
  rewrite store_files_keys. split; [|now right].
  intros [[] | Hf]. exact Hf.
Qed.

(** X3.  Every value of the store comes from a file of that name: its
    content is what was read, its title is the title extracted from that
    content, its path is the path of the file. *)
Theorem kb_documents_values (d : data_dir) (k : str) (doc : Document) :
  In (k, doc) (kb_documents d) ->
  exists f,
    In f (dir_glob_md d) /\ md_name f = k
    /\ md_read f = inl (doc_content doc)
    /\ doc_title doc = extract_title (doc_content doc)
    /\ doc_file_path doc = md_path f.
Proof.
  destruct (dir_exists d) eqn:H.
  - rewrite kb_documents_existing by exact H. intros Hin.
    apply store_files_values in Hin as [[] | Hf]. exact Hf.
  - now rewrite kb_documents_missing.
Qed.

(** X4.  The number [health_check] reports is at most the number of files
    found, and equals it when the directory exists, every file can be read
    and the names differ; [list_documents] lists as many entries, under
    distinct file names. *)
Theorem health_check_counts_files (d : data_dir) :
  (documents_loaded (health_check (kb_documents d))
   <= Z.of_nat (length (dir_glob_md d)))%Z
  /\ (dir_exists d = true ->
      forallb readable (dir_glob_md d) = true ->
      NoDup (map md_name (dir_glob_md d)) ->
      documents_loaded (health_check (kb_documents d))
      = Z.of_nat (length (dir_glob_md d)))
  /\ Z.of_nat (length (list_documents (kb_documents d)))
     = documents_loaded (health_check (kb_documents d))
  /\ NoDup (map fst (list_documents (kb_documents d))).
Proof.
  cbn [documents_loaded health_check]. repeat split.
  - destruct (dir_exists d) eqn:H.
    + rewrite kb_documents_existing by exact H.
      pose proof (store_files_length (dir_glob_md d) []) as Hl.
      simpl in Hl. lia.
    + rewrite kb_documents_missing by exact H. simpl. lia.
  - intros H Hr Hnd. rewrite kb_documents_existing by exact H.
    rewrite store_files_all; [reflexivity | exact Hr | exact Hnd].
  - unfold list_documents. now rewrite length_map.
  - unfold list_documents. rewrite map_map. cbn [fst].
    apply (load_documents_keys d init_state). constructor.
Qed.

(** X5.  A file that cannot be read leaves the store as it would be
    without that file. *)
Theorem unreadable_file_ignored (d : data_dir) (before after : list md_file)
  (f : md_file) :
  dir_glob_md d = before ++ f :: after ->
  readable f = false ->
  kb_documents d = kb_documents (with_files d (before ++ after)).
Proof.
  intros Hfiles Hf. destruct (dir_exists d) eqn:H.
  - rewrite !kb_documents_existing by exact H.
    cbn [dir_glob_md with_files]. rewrite Hfiles, !fold_left_app.
    cbn [fold_left]. f_equal.
    generalize (fold_left store_file before []). intros docs.
    unfold store_file, readable in *.
    destruct (md_read f); [discriminate | reflexivity].
  - now rewrite !kb_documents_missing.
Qed.

(** X17.  A title never starts or ends with whitespace. *)
Theorem extract_title_trimmed (content : str) :
  trimmed (extract_title content).
Proof.
  unfold extract_title. induction (split content [LF]) as [|line lines IH].
  - cbn. now split.
  - cbn [extract_title_loop]. destruct (startswith line (lit "# ")).
    + apply strip_trimmed.
    + exact IH.
Qed.

(** X18.  The answer is the fixed message exactly when there is no
    result. *)
Theorem generate_answer_not_found_iff (q : str)
  (results : list SearchResult) :
  generate_answer q results = not_found_message <-> results = [].
Proof.
  split.
  - destruct results as [|r rest]; [reflexivity|].
    intros H. now apply generate_answer_found in H.
  - now intros ->.
Qed.

End LoadingAndAnswers.

Section Searching.

Variable lower : str -> str.

(** X6.  For a non-negative [max_results], the number of results is the
    smaller of [max_results] and the number of documents the query
    matches. *)
Theorem search_length (docs : dict Document) (q : str) (m : Z) :
  (0 <= m)%Z ->
  Z.of_nat (length (search lower docs q m))
  = Z.min m (Z.of_nat (length (filter (fun item => matches lower q (snd item))
                                      docs))).
Proof.
  intros H. rewrite search_length_nonneg by exact H.
  rewrite found_matches. lia.
Qed.

(** X7.  A negative [max_results] removes that many results from the end
    of the ranking instead of bounding their number. *)
Theorem search_negative_limit (docs : dict Document) (q : str) (m : Z) :
  (m < 0)%Z ->
  length (search lower docs q m)
  = length (filter (fun item => matches lower q (snd item)) docs)
    - Z.to_nat (- m)
  /\ search lower docs q m
     = firstn (length (found lower q docs) - Z.to_nat (- m))
         (sort_desc relevance_score
            (map (result_for lower q) (found lower q docs))).
Proof.
  intros H. rewrite search_unfold. unfold slice_to.
  replace (0 <=? m)%Z with false by (symmetry; apply Z.leb_gt; exact H).
  rewrite sort_desc_length, length_map. split; [|reflexivity].
  rewrite length_firstn, sort_desc_length, length_map, found_matches. lia.
Qed.

(** X8.  When at least one result is asked for, [search] returns nothing
    exactly when the query matches no document. *)
Theorem search_empty_iff_no_match (docs : dict Document) (q : str) (m : Z) :
  (1 <= m)%Z ->
  search lower docs q m = []
  <-> forall item, In item docs -> matches lower q (snd item) = false.
Proof. apply search_nil_iff. Qed.

(** X9.  The first result has the highest score of the whole store. *)
Theorem search_best_first (docs : dict Document) (q : str) (m : Z)
  (r : SearchResult) (rest : list SearchResult) :
  search lower docs q m = r :: rest ->
  forall k d, In (k, d) docs ->
              (score_in lower q d <= relevance_score r)%Z.
Proof.
  intros H k d Hd. exact (search_head_max lower docs q m r rest k d H Hd).
Qed.

(** X10.  Asking for fewer results gives the beginning of the longer
    answer. *)
Theorem search_fewer_is_prefix (docs : dict Document) (q : str) (m m' : Z) :
  (0 <= m <= m')%Z ->
  search lower docs q m = firstn (Z.to_nat m) (search lower docs q m').
Proof.
  intros H. rewrite !search_unfold, !slice_to_nonneg by lia.
  rewrite firstn_firstn. f_equal. lia.
Qed.

(** X11.  The results carry distinct file names, each a key of the store,
    with the title stored under it. *)
Theorem search_results_from_store (docs : dict Document) (q : str) (m : Z) :
  NoDup (keys docs) ->
  NoDup (map file_path (search lower docs q m))
  /\ forall r, In r (search lower docs q m) ->
       exists d, In (file_path r, d) docs /\ title r = doc_title d.
Proof.
  intros H. split; [now apply search_paths_distinct|].
  intros r Hr. apply search_In in Hr as [[k d] [Hin [-> _]]].
  exists d. now split.
Qed.

(** X12.  A query that lowercases to whitespace only, the empty query
    included, has no words: it finds nothing and gets the fixed
    message. *)
Theorem search_blank_query (docs : dict Document) (q : str) (m : Z) :
  forallb isspace (lower q) = true ->
  search lower docs q m = []
  /\ generate_answer q (search lower docs q m) = not_found_message.
Proof.
  intros H.
  assert (E : search lower docs q m = []).
  { apply search_none. intros item _. unfold matches, query_words.
    now rewrite split_ws_blank. }
  now rewrite E.
Qed.

(** X13.  The score adds up over the words: for two lists of words put
    together it is the sum of the two scores, and it does not depend on
    the order of the words. *)
Theorem doc_score_words (cl : str) :
  (forall ws1 ws2,
      doc_score cl (ws1 ++ ws2)
      = (doc_score cl ws1 + doc_score cl ws2)%Z)
  /\ (forall ws ws', Permutation ws ws' ->
                     doc_score cl ws = doc_score cl ws').
Proof.
  split.
  - intros ws1 ws2. rewrite !doc_score_sum. apply sum_counts_app.
  - intros ws ws' H. rewrite !doc_score_sum. now apply sum_counts_perm.
Qed.

(** X14.  A score is never negative and is at most the number of words of
    the query times the length of the lowercased content. *)
Theorem score_in_bounds (q : str) (d : Document) :
  (0 <= score_in lower q d
   <= Z.of_nat (length (query_words lower q)
                * length (lower (doc_content d))))%Z.
Proof.
  rewrite score_in_sum. split; [apply sum_counts_nonneg|].
  apply sum_counts_le. intros w Hw.
  now apply split_ws_words in Hw as [Hne _].
Qed.

(** X15.  The excerpt is never longer than the content it is taken
    from. *)
Theorem excerpt_not_longer (content : str) (words : list str) :
  length (extract_relevant_content lower content words) <= length content.
Proof.
  rewrite extract_relevant_content_eq.
  set (ps := split content [LF; LF]).
  set (kept := firstn 3 (map strip (filter (qualifies lower words) ps))).
  assert (Hw : weight 2 kept <= weight 2 ps).
  { unfold kept. rewrite weight_firstn, weight_strip. apply weight_filter. }
  assert (Hc : length content + 2 = weight 2 ps).
  { rewrite <- (join_split content [LF; LF]) at 1 by discriminate.
    apply (join_length [LF; LF]). apply split_from_nonempty. }
  destruct kept as [|p kept'] eqn:E; [simpl; lia|].
  pose proof (join_length [LF; LF] (p :: kept')) as Hj.
  cbn [length] in Hj. rewrite <- Hj in Hw by discriminate. lia.
Qed.

(** X16.  The excerpt splits at blank lines into at most three paragraphs;
    when it is not empty, each is a paragraph of the content that
    qualifies, stripped, so it occurs in the content and neither starts
    nor ends with whitespace. *)
Theorem excerpt_paragraphs (content : str) (words : list str) :
  length (split (extract_relevant_content lower content words) [LF; LF]) <= 3
  /\ (extract_relevant_content lower content words <> [] ->
      forall p,
        In p (split (extract_relevant_content lower content words) [LF; LF])
        -> trimmed p
           /\ contains content p = true
           /\ exists p0, In p0 (split content [LF; LF])
                         /\ qualifies lower words p0 = true
                         /\ p = strip p0).
Proof.
  rewrite extract_relevant_content_eq.
  set (kept := firstn 3 (map strip (filter (qualifies lower words)
                                           (split content [LF; LF])))).
  assert (Hkept : forall p, In p kept ->
            exists p0, In p0 (split content [LF; LF])
                       /\ qualifies lower words p0 = true /\ p = strip p0).
  { intros p Hp. unfold kept in Hp. apply In_firstn in Hp.
    apply in_map_iff in Hp as [p0 [<- Hp0]].
    apply filter_In in Hp0 as [H1 H2]. now exists p0. }
  assert (Hlen : length kept <= 3) by (unfold kept; rewrite length_firstn; lia).
  destruct kept as [|p1 kept'] eqn:E.
  - split; [simpl; lia | intros H; now contradiction H].
  - assert (Hs : split (join [LF; LF] (p1 :: kept')) [LF; LF] = p1 :: kept').
    { apply split_join; [discriminate|]. intros p Hp.
      destruct (Hkept p Hp) as [p0 [Hp0 [_ ->]]].
      now apply (strip_paragraph content). }
    rewrite Hs. split; [exact Hlen|]. intros _ p Hp.
    destruct (Hkept p Hp) as [p0 [Hp0 [Hq ->]]].
    split; [apply strip_trimmed | split].
    + apply (contains_trans content p0).
      * now apply (split_In_contains content [LF; LF]).
      * apply contains_strip.
    + now exists p0.
Qed.

(** X19.  When at least one result is asked for, the answer of
    [POST /search] is the fixed message exactly when the question matches
    no document. *)
Theorem search_knowledge_not_found_iff (kb : dict Document)
  (query : QueryRequest) :
  (1 <= req_max_results query)%Z ->
  resp_answer (search_knowledge lower kb query) = not_found_message
  <-> forall item, In item kb ->
                   matches lower (req_question query) (snd item) = false.
Proof.
  intros Hm. cbn [resp_answer search_knowledge].
  rewrite <- (search_nil_iff lower kb (req_question query)
                (req_max_results query) Hm).
  split.
  - destruct (search lower kb _ _) as [|r rest]; [reflexivity|].
    intros H. now apply generate_answer_found in H.
  - now intros ->.
Qed.

(** X20.  When at least one result is asked for and the question matches
    some document, the answer of [POST /search] opens with the title of a
    document whose score no other document exceeds. *)
Theorem search_knowledge_cites_best (kb : dict Document)
  (query : QueryRequest) (item : str * Document) :
  (1 <= req_max_results query)%Z ->
  In item kb -> matches lower (req_question query) (snd item) = true ->
  exists k d,
    In (k, d) kb
    /\ (forall k' d', In (k', d') kb ->
          (score_in lower (req_question query) d'
           <= score_in lower (req_question query) d)%Z)
    /\ startswith (resp_answer (search_knowledge lower kb query))
                  (answer_open ++ doc_title d ++ answer_close) = true.
Proof.
  intros Hm Hitem Hmatch. cbn [resp_answer search_knowledge].
  destruct (search lower kb (req_question query) (req_max_results query))
    as [|r rest] eqn:E.
  - pose proof (proj1 (search_nil_iff lower kb (req_question query)
                         (req_max_results query) Hm) E item Hitem) as E'.
    rewrite E' in Hmatch. discriminate.
  - assert (Hr : In r (search lower kb (req_question query)
                         (req_max_results query)))
      by (rewrite E; now left).
    apply search_In in Hr as [[k d] [Hin [Hr _]]].
    exists k, d. split; [exact Hin | split].
    + intros k' d' Hin'.
      pose proof (search_head_max lower kb _ _ r rest k' d' E Hin') as H.
      rewrite Hr in H. exact H.
    + apply startswith_iff.
      destruct (generate_answer_opening (req_question query) r rest)
        as [t Ht].
      exists t. rewrite Ht, Hr. reflexivity.
Qed.

(** X21.  Without data directory the service answers all the same: every
    search is empty and gets the fixed message, no document is counted and
    none is listed. *)
Theorem missing_directory_service (d : data_dir) (query : QueryRequest) :
  dir_exists d = false ->
  resp_results (search_knowledge lower (kb_documents d) query) = []
  /\ resp_answer (search_knowledge lower (kb_documents d) query)
     = not_found_message
  /\ documents_loaded (health_check (kb_documents d)) = 0%Z
  /\ list_documents (kb_documents d) = [].
Proof.
  intros H. rewrite kb_documents_missing by exact H.
  cbn [resp_results resp_answer search_knowledge].
  assert (E : search lower [] (req_question query) (req_max_results query)
              = [])
    by (apply search_none; intros item []).
  rewrite E. repeat split.
Qed.

(** X22.  A document the query does not match can be taken out of the
    store without changing the results. *)
Theorem search_ignores_unmatched (before after : dict Document)
  (item : str * Document) (q : str) (m : Z) :
  matches lower q (snd item) = false ->
  search lower (before ++ item :: after) q m
  = search lower (before ++ after) q m.
Proof.
  intros H. rewrite !search_unfold. unfold found.
  rewrite !filter_app. cbn [filter]. now rewrite score_in_pos, H.
Qed.

End Searching.

(* ================================================================= *)
(** ** The further properties at concrete inputs *)


Lemma kb_documents_keys_witness :
  dir_exists broken_dir = true
  /\ In (lit "b.md") (keys (kb_documents broken_dir))
  /\ ~ In (lit "c.md") (keys (kb_documents broken_dir)).
Proof.
  split; [reflexivity | split].
  - apply (proj2 (kb_documents_keys broken_dir (lit "b.md") eq_refl)).
    exists {| md_name := lit "b.md"; md_path := lit "/app/data/b.md";
              md_read := inl b_md |}.
    split; [right; right; left; reflexivity | split; reflexivity].
  - intros H.
    apply (proj1 (kb_documents_keys broken_dir (lit "c.md") eq_refl)) in H.
    destruct H as [f [[<- | [<- | [<- | []]]] [Hn Hr]]]; discriminate.
Defined.

Lemma kb_documents_values_witness :
  In (lit "a.md", a_doc) (kb_documents example_dir)
  /\ exists f,
       In f (dir_glob_md example_dir) /\ md_name f = lit "a.md"
       /\ md_read f = inl (doc_content a_doc)
       /\ doc_title a_doc = extract_title (doc_content a_doc)
       /\ doc_file_path a_doc = md_path f.
Proof.
  assert (H : In (lit "a.md", a_doc) (kb_documents example_dir))
    by (left; reflexivity).
  split; [exact H|].
  exact (kb_documents_values example_dir (lit "a.md") a_doc H).
Defined.

Lemma health_check_counts_files_witness :
  documents_loaded (health_check (kb_documents example_dir)) = 2%Z.
Proof.
  apply (proj1 (proj2 (health_check_counts_files example_dir))).
  - reflexivity.
  - reflexivity.
  - constructor; [intros [H | []]; discriminate H|].
    constructor; [intros []|]. constructor.
Defined.

Lemma unreadable_file_ignored_witness :
  readable broken_file = false
  /\ kb_documents broken_dir = kb_documents example_dir.
Proof.
  split; [reflexivity|].
  apply (unreadable_file_ignored broken_dir
           [ {| md_name := lit "a.md"; md_path := lit "/app/data/a.md";
                md_read := inl a_md |} ]
           [ {| md_name := lit "b.md"; md_path := lit "/app/data/b.md";
                md_read := inl b_md |} ]
           broken_file).
  - reflexivity.
  - reflexivity.
Defined.

Lemma search_length_witness :
  (0 <= 1)%Z
  /\ Z.of_nat (length (search lower_ascii example_docs (lit "fight") 1))
     = Z.min 1 2.
Proof.
  split; [lia|].
  apply (search_length lower_ascii example_docs (lit "fight") 1). lia.
Defined.

Lemma search_negative_limit_witness :
  (-1 < 0)%Z
  /\ length (search lower_ascii example_docs (lit "fight") (-1)) = 2 - 1.
Proof.
  split; [lia|].
  apply (search_negative_limit lower_ascii example_docs (lit "fight") (-1)).
  lia.
Defined.

Lemma search_empty_iff_no_match_witness :
  (1 <= 3)%Z /\ search lower_ascii example_docs (lit "zebra") 3 = [].
Proof.
  split; [lia|].
  apply (proj2 (search_empty_iff_no_match lower_ascii example_docs
                  (lit "zebra") 3 ltac:(lia))).
  intros item [<- | [<- | []]]; reflexivity.
Defined.

Lemma search_best_first_witness :
  search lower_ascii example_docs (lit "fight smart") 3
  = {| title := lit "Tactics"; content := lit "Fight smart.";
       relevance_score := 2; file_path := lit "b.md" |} :: [a_result]
  /\ (score_in lower_ascii (lit "fight smart") a_doc <= 2)%Z.
Proof.
  assert (H : search lower_ascii example_docs (lit "fight smart") 3
              = {| title := lit "Tactics"; content := lit "Fight smart.";
                   relevance_score := 2; file_path := lit "b.md" |}
                  :: [a_result]) by reflexivity.
  split; [exact H|].
  apply (search_best_first lower_ascii example_docs (lit "fight smart") 3
           _ _ H (lit "a.md") a_doc).
  left. reflexivity.
Defined.

Lemma search_fewer_is_prefix_witness :
  (0 <= 1 <= 3)%Z
  /\ search lower_ascii example_docs (lit "fight") 1
     = firstn 1 (search lower_ascii example_docs (lit "fight") 3).
Proof.
  split; [lia|].
  apply (search_fewer_is_prefix lower_ascii example_docs (lit "fight") 1 3).
  lia.
Defined.

Lemma search_results_from_store_witness :
  NoDup (map file_path (search lower_ascii example_docs (lit "fight") 3)).
Proof.
  apply (search_results_from_store lower_ascii example_docs (lit "fight") 3).
  exact example_docs_keys.
Defined.

Lemma search_blank_query_witness :
  forallb isspace (lower_ascii (lit "  ")) = true
  /\ search lower_ascii example_docs (lit "  ") 3 = [].
Proof.
  split; [reflexivity|].
  apply (search_blank_query lower_ascii example_docs (lit "  ") 3).
  reflexivity.
Defined.

Lemma doc_score_words_witness :
  doc_score (lower_ascii b_md) [lit "fight"; lit "smart"]
  = doc_score (lower_ascii b_md) [lit "smart"; lit "fight"].
Proof.
  apply (proj2 (doc_score_words (lower_ascii b_md))). apply perm_swap.
Defined.

Lemma excerpt_paragraphs_witness :
  extract_relevant_content lower_ascii a_md [lit "fight"; lit "plan"] <> []
  /\ In (lit "Plan carefully.")
        (split (extract_relevant_content lower_ascii a_md
                  [lit "fight"; lit "plan"]) [LF; LF])
  /\ contains a_md (lit "Plan carefully.") = true.
Proof.
  assert (H1 : extract_relevant_content lower_ascii a_md
                 [lit "fight"; lit "plan"] <> []) by discriminate.
  assert (H2 : In (lit "Plan carefully.")
                  (split (extract_relevant_content lower_ascii a_md
                            [lit "fight"; lit "plan"]) [LF; LF]))
    by (right; left; reflexivity).
  split; [exact H1 | split; [exact H2|]].
  exact (proj1 (proj2 (proj2 (excerpt_paragraphs lower_ascii a_md
                                [lit "fight"; lit "plan"]) H1 _ H2))).
Defined.

Lemma search_knowledge_not_found_iff_witness :
  resp_answer (search_knowledge lower_ascii example_docs
                 {| req_question := lit "zebra"; req_max_results := 3 |})
  = not_found_message.
Proof.
  apply (proj2 (search_knowledge_not_found_iff lower_ascii example_docs
                  {| req_question := lit "zebra"; req_max_results := 3 |}
                  ltac:(cbn; lia))).
  intros item [<- | [<- | []]]; reflexivity.
Defined.

Lemma search_knowledge_cites_best_witness :
  exists k d,
    In (k, d) example_docs
    /\ (forall k' d', In (k', d') example_docs ->
          (score_in lower_ascii (lit "smart") d'
           <= score_in lower_ascii (lit "smart") d)%Z)
    /\ startswith
         (resp_answer (search_knowledge lower_ascii example_docs
                         {| req_question := lit "smart";
                            req_max_results := 3 |}))
         (answer_open ++ doc_title d ++ answer_close) = true.
Proof.
  apply (search_knowledge_cites_best lower_ascii example_docs
           {| req_question := lit "smart"; req_max_results := 3 |}
           (lit "b.md", b_doc)).
  - cbn. lia.
  - right. left. reflexivity.
  - reflexivity.
Defined.

Lemma missing_directory_service_witness :
  dir_exists missing_dir = false
  /\ resp_answer (search_knowledge lower_ascii (kb_documents missing_dir)
                    {| req_question := lit "fight"; req_max_results := 3 |})
     = not_found_message.
Proof.
  split; [reflexivity|].
  apply (missing_directory_service lower_ascii missing_dir
           {| req_question := lit "fight"; req_max_results := 3 |}).
  reflexivity.
Defined.

Lemma search_ignores_unmatched_witness :
  matches lower_ascii (lit "smart") a_doc = false
  /\ search lower_ascii example_docs (lit "smart") 3
     = search lower_ascii [(lit "b.md", b_doc)] (lit "smart") 3.
Proof.
  split; [reflexivity|].
  apply (search_ignores_unmatched lower_ascii []
           [(lit "b.md", b_doc)] (lit "a.md", a_doc) (lit "smart") 3).
  reflexivity.
Defined.
